(** * Front-end build tools: the five pipeline stages of [index.js]

    The stages are thin adapters around third-party libraries, written with
    JavaScript promises, callbacks and one [async] function.  The development
    has three layers:

    - [value]/[event]: the JavaScript values the stages handle and the calls
      they make to their collaborators (file system, template engine, style
      compiler, purger, prefixer, transpiler, minifier, formatter);
    - [js]/[run]/[loop]: a small model of run-to-completion jobs, promises
      with first-settlement-wins semantics, microtasks and pending
      environment completions;
    - the five stages, written operation by operation after the source, with
      every collaborator answer drawn from a [world] oracle.

    What a run did is read off its [trace]: the calls made to the
    collaborators, the completions of asynchronous file operations, and the
    settlements of promises, in the order in which they happened.  The
    promise a stage returns is always promise 0.  Statements quantify over
    the world (what the libraries answer), over the order in which pending
    completions arrive ([choices]) and over the number of turns of the event
    loop ([fuel]). *)

From Stdlib Require Import List String Bool Arith ZArith Lia.
From Stdlib Require Import DecimalString.
Import ListNotations.
Open Scope string_scope.
Open Scope list_scope.

(* ------------------------------------------------------------------ *)
(** ** JavaScript values *)

#[local] Set Warnings "-register-all".

Inductive value : Type :=
| VUndefined
| VNull
| VBool (b : bool)
| VNum (n : Z)
| VStr (s : string)
| VError (msg : string)          (* new Error(msg) *)
| VTypeError (msg : string)      (* a TypeError raised by the runtime *)
| VArr (items : list value)
| VObj (fields : list (string * value)).

(** [!v] in the source is [negb (truthy v)]. *)
Definition truthy (v : value) : bool :=
  match v with
  | VUndefined | VNull => false
  | VBool b => b
  | VNum n => negb (Z.eqb n 0)
  | VStr s => negb (String.eqb s "")
  | VError _ | VTypeError _ | VArr _ | VObj _ => true
  end.

(** A destructuring default [x = d] applies exactly when the field is
    [undefined], which is also what an omitted field reads as. *)
Definition default_param (d v : value) : value :=
  match v with
  | VUndefined => d
  | _ => v
  end.

(** [v === true]. *)
Definition strict_eq_true (v : value) : bool :=
  match v with
  | VBool true => true
  | _ => false
  end.

(** Interpolation of a value in a template literal.  An array is the
    comma-separated list of its items, [null] and [undefined] items being
    left empty. *)
Fixpoint to_str (v : value) : string :=
  match v with
  | VUndefined => "undefined"
  | VNull => "null"
  | VBool true => "true"
  | VBool false => "false"
  | VNum n => NilZero.string_of_int (Z.to_int n)
  | VStr s => s
  | VError msg => "Error: " ++ msg
  | VTypeError msg => "TypeError: " ++ msg
  | VArr items =>
      (fix join (l : list value) : string :=
         match l with
         | [] => ""
         | x :: l' =>
             let sx := match x with
                       | VUndefined | VNull => ""
                       | _ => to_str x
                       end in
             match l' with
             | [] => sx
             | _ :: _ => (sx ++ "," ++ join l')%string
             end
         end) items
  | VObj _ => "[object Object]"
  end.

Fixpoint assoc (k : string) (l : list (string * value)) : option value :=
  match l with
  | [] => None
  | (k', v) :: l' => if String.eqb k k' then Some v else assoc k l'
  end.

(** [v.k]: reading a property of [undefined] or [null] throws. *)
Definition get_prop (v : value) (k : string) : option value :=
  match v with
  | VUndefined | VNull => None
  | VObj fields =>
      match assoc k fields with
      | Some x => Some x
      | None => Some VUndefined
      end
  | _ => Some VUndefined
  end.

Definition result : Type := (value + value)%type.   (* inl error | inr value *)

(* ------------------------------------------------------------------ *)
(** ** Observable events *)

Definition pid := nat.

Inductive outcome : Type :=
| Fulfilled (v : value)
| Rejected (e : value).

Inductive event : Type :=
| ConsoleLog (args : list value)
| ConsoleWarn (args : list value)
| NunjucksConfigure (templates : value)
| NunjucksAddGlobal (name : string) (val : value)
| NunjucksRender (input data : value)
| Pretty (text : value)
| SassRenderSync (file outFile sourceMap : value)
| PurgeCss (content css sourceMap : value)
| PostcssProcess (css : value)
| BabelTransformFile (input : value) (presets : list string)
| UglifyMinify (name : string) (data : value)
| FsReadFile (path : value)
| FsReadFileDone (path : value) (r : string + value)
| FsWriteFile (path data : value)
| FsWriteFileDone (path : value) (err : option string)
| FsWriteFileSync (path data : value)
| Settled (p : pid) (o : outcome)
| Thrown (e : value).            (* an exception that escapes to the host *)

Definition is_file_io (ev : event) : bool :=
  match ev with
  | FsReadFile _ | FsReadFileDone _ _ | FsWriteFile _ _
  | FsWriteFileDone _ _ | FsWriteFileSync _ _ => true
  | _ => false
  end.

Definition is_write (ev : event) : bool :=
  match ev with
  | FsWriteFile _ _ | FsWriteFileDone _ _ | FsWriteFileSync _ _ => true
  | _ => false
  end.

Definition is_write_sync (ev : event) : bool :=
  match ev with
  | FsWriteFileSync _ _ => true
  | _ => false
  end.

Definition is_purge (ev : event) : bool :=
  match ev with
  | PurgeCss _ _ _ => true
  | _ => false
  end.

Definition settles (p : pid) (ev : event) : bool :=
  match ev with
  | Settled q _ => Nat.eqb p q
  | _ => false
  end.

(* ------------------------------------------------------------------ *)
(** ** Jobs, promises and the event loop *)

(** The code of one job in continuation-passing form.  [Await] and the end of
    the term give control back to the loop. *)
Inductive js : Type :=
| Done
| Throw (e : value)
| Call (ev : event) (k : js)
| NewPromise (executor : pid -> js) (k : pid -> js)
| Resolve (p : pid) (v : value) (k : js)
| Reject (p : pid) (e : value) (k : js)
| Async (body : pid -> js) (k : pid -> js)
| Await (p : pid) (k : value -> js)
| Then (p : pid) (onFulfilled : value -> js) (k : pid -> js)
| All (ps : list pid) (k : pid -> js)
| Later (callback : js) (k : js)
| Extern (ready : bool) (o : outcome) (k : pid -> js).

(** What a [return] or a [throw] of the running code does: nothing and an
    escaping exception at top level (a callback run by the host); inside a
    promise executor a throw rejects the promise; inside an [async] body or a
    [then] callback the end fulfils, and a throw rejects, the promise that
    stands for the call. *)
Inductive ctx : Type :=
| CTop
| CExecutor (p : pid)
| CReturn (p : pid).

Inductive reaction : Type :=
| RCont (c : ctx) (k : value -> js)
| RAll (r : pid).

Inductive task : Type :=
| TJob (c : ctx) (j : js)
| TAll (r : pid) (o : outcome)
| TSettle (p : pid) (o : outcome).

Record promise : Type := mkPromise {
  status : option outcome;
  reactions : list reaction
}.

Record state : Type := mkState {
  next : pid;
  promises : pid -> promise;
  remaining : pid -> nat;       (* Promise.all: inputs still to fulfil *)
  micro : list task;
  pending : list task;          (* completions owed by the environment *)
  sched : list nat;             (* which pending completion comes next *)
  trace : list event
}.

Definition fresh : promise := mkPromise None [].

Definition init (choices : list nat) : state :=
  mkState 0 (fun _ => fresh) (fun _ => 0) [] [] choices [].

Definition upd {A : Type} (f : pid -> A) (p : pid) (x : A) : pid -> A :=
  fun q => if Nat.eqb q p then x else f q.

Definition emit (ev : event) (s : state) : state :=
  mkState (next s) (promises s) (remaining s) (micro s) (pending s) (sched s)
          (trace s ++ [ev]).

Definition alloc (pr : promise) (s : state) : state :=
  mkState (S (next s)) (upd (promises s) (next s) pr) (remaining s)
          (micro s) (pending s) (sched s) (trace s).

Definition enqueue (ts : list task) (s : state) : state :=
  mkState (next s) (promises s) (remaining s) (micro s ++ ts) (pending s)
          (sched s) (trace s).

Definition owe (t : task) (s : state) : state :=
  mkState (next s) (promises s) (remaining s) (micro s) (pending s ++ [t])
          (sched s) (trace s).

Definition react (o : outcome) (rx : reaction) : task :=
  match rx with
  | RCont c k =>
      match o with
      | Fulfilled v => TJob c (k v)
      | Rejected e => TJob c (Throw e)
      end
  | RAll r => TAll r o
  end.

(** The first settlement wins; later ones change nothing. *)
Definition settle (p : pid) (o : outcome) (s : state) : state :=
  match status (promises s p) with
  | Some _ => s
  | None =>
      mkState (next s) (upd (promises s) p (mkPromise (Some o) []))
              (remaining s)
              (micro s ++ map (react o) (reactions (promises s p)))
              (pending s) (sched s) (trace s ++ [Settled p o])
  end.

Definition subscribe (p : pid) (rx : reaction) (s : state) : state :=
  match status (promises s p) with
  | Some o => enqueue [react o rx] s
  | None =>
      mkState (next s)
              (upd (promises s) p
                   (mkPromise None (reactions (promises s p) ++ [rx])))
              (remaining s) (micro s) (pending s) (sched s) (trace s)
  end.

Definition set_remaining (r : pid) (n : nat) (s : state) : state :=
  mkState (next s) (promises s) (upd (remaining s) r n) (micro s) (pending s)
          (sched s) (trace s).

Definition finish (c : ctx) (s : state) : state :=
  match c with
  | CReturn p => settle p (Fulfilled VUndefined) s
  | _ => s
  end.

Definition raise (c : ctx) (e : value) (s : state) : state :=
  match c with
  | CTop => emit (Thrown e) s
  | CExecutor p | CReturn p => settle p (Rejected e) s
  end.

(** Promise.all over [ps], delivering to [r].  The array of results, which
    the source does not use, is left empty. *)
Definition join (r : pid) (ps : list pid) (s : state) : state :=
  match ps with
  | [] => settle r (Fulfilled (VArr [])) s
  | _ => fold_left (fun s' p => subscribe p (RAll r) s') ps
                   (set_remaining r (List.length ps) s)
  end.

Fixpoint run (c : ctx) (j : js) (s : state) : state :=
  match j with
  | Done => finish c s
  | Throw e => raise c e s
  | Call ev k => run c k (emit ev s)
  | NewPromise executor k =>
      let p := next s in
      run c (k p) (run (CExecutor p) (executor p) (alloc fresh s))
  | Resolve p v k => run c k (settle p (Fulfilled v) s)
  | Reject p e k => run c k (settle p (Rejected e) s)
  | Async body k =>
      let p := next s in
      run c (k p) (run (CReturn p) (body p) (alloc fresh s))
  | Await p k => subscribe p (RCont c k) s
  | Then p f k =>
      let d := next s in
      run c (k d) (subscribe p (RCont (CReturn d) f) (alloc fresh s))
  | All ps k =>
      let r := next s in
      run c (k r) (join r ps (alloc fresh s))
  | Later callback k => run c k (owe (TJob CTop callback) s)
  | Extern ready o k =>
      let e := next s in
      if ready then run c (k e) (alloc (mkPromise (Some o) []) s)
      else run c (k e) (owe (TSettle e o) (alloc fresh s))
  end.

Definition step_task (t : task) (s : state) : state :=
  match t with
  | TJob c j => run c j s
  | TSettle p o => settle p o s
  | TAll r (Rejected e) => settle r (Rejected e) s
  | TAll r (Fulfilled _) =>
      match remaining s r with
      | S (S n) => set_remaining r (S n) s
      | _ => settle r (Fulfilled (VArr [])) (set_remaining r 0 s)
      end
  end.

(** Removes the [i]-th pending completion (the first when [i] is out of
    range). *)
Fixpoint extract (i : nat) (l : list task) {struct l}
  : option (task * list task) :=
  match l with
  | [] => None
  | [t] => Some (t, [])
  | t :: ts =>
      match i with
      | 0 => Some (t, ts)
      | S i' =>
          match extract i' ts with
          | Some (u, us) => Some (u, t :: us)
          | None => Some (t, ts)
          end
      end
  end.

Definition pop_micro (ts : list task) (s : state) : state :=
  mkState (next s) (promises s) (remaining s) ts (pending s) (sched s)
          (trace s).

Definition pop_pending (ts : list task) (s : state) : state :=
  mkState (next s) (promises s) (remaining s) (micro s) ts (tl (sched s))
          (trace s).

(** One turn: the oldest microtask if there is one, else one completion
    chosen by the schedule. *)
Definition turn (s : state) : option state :=
  match micro s with
  | t :: ts => Some (step_task t (pop_micro ts s))
  | [] =>
      match extract (hd 0 (sched s)) (pending s) with
      | Some (t, ts) => Some (step_task t (pop_pending ts s))
      | None => None
      end
  end.

Fixpoint loop (fuel : nat) (s : state) : state :=
  match fuel with
  | 0 => s
  | S f =>
      match turn s with
      | Some s' => loop f s'
      | None => s
      end
  end.

Definition idle (s : state) : bool :=
  match micro s, pending s with
  | [], [] => true
  | _, _ => false
  end.

(** A call from the host: the synchronous part, then [fuel] turns. *)
Definition exec (prog : js) (choices : list nat) (fuel : nat) : state :=
  loop fuel (run CTop prog (init choices)).

Definition status_of (s : state) (p : pid) : option outcome :=
  status (promises s p).

(* ------------------------------------------------------------------ *)
(** ** The collaborators *)

(** A call that takes a callback either throws while it checks its arguments
    or completes later with [r]; a failed completion carries the message of
    its Error object. *)
Inductive io (A : Type) : Type :=
| SyncThrow (e : value)
| Completes (r : A).
Arguments SyncThrow {A} e.
Arguments Completes {A} r.

Record sass_result : Type := mkSass { sass_css : value; sass_map : value }.
Record purged : Type := mkPurged { purged_file : value; purged_css : value }.
Record prefixed : Type := mkPrefixed {
  prefixed_css : value;
  prefixed_warnings : list value
}.

(** Every answer of a wrapped library.  A promise-returning library also
    says whether its promise is already settled when it is handed over. *)
Record world : Type := mkWorld {
  nunjucks_render :
    value -> list (string * value) -> value -> value -> string + value;
  pretty : value -> result;
  sass_renderSync : value -> value -> value -> value + sass_result;
  purge : value -> value -> value -> bool * (value + list purged);
  postcss_process : value -> bool * (value + prefixed);
  babel_transformFile : value -> list string -> bool * result;
  uglify_minify : string -> value -> value;
  path_basename : string -> string;
  fs_readFile : value -> io (string + value);
  fs_writeFile : value -> value -> io (option string);
  fs_writeFileSync : value -> value -> option value
}.

Definition settled_as {A : Type} (enc : A -> value) (r : value + A)
  : outcome :=
  match r with
  | inl e => Rejected e
  | inr x => Fulfilled (enc x)
  end.

Definition purged_value (r : purged) : value :=
  VObj [("css", purged_css r); ("file", purged_file r)].

Definition prefixed_value (r : prefixed) : value :=
  VObj [("css", prefixed_css r); ("warnings", VArr (prefixed_warnings r))].

Definition transformed_value (code : value) : value := VObj [("code", code)].

(** The [(err, data)] a Node callback receives: an Error object and no
    data, or [null] and the data. *)
Definition cb_err (r : string + value) : value :=
  match r with inl msg => VError msg | inr _ => VNull end.
Definition cb_data (r : string + value) : value :=
  match r with inl _ => VUndefined | inr d => d end.
Definition cb_write_err (r : option string) : value :=
  match r with Some msg => VError msg | None => VNull end.

(* ------------------------------------------------------------------ *)
(** ** The configuration object *)

(** One record for the option objects of all stages; a field that the caller
    leaves out reads as [VUndefined].  [globalVars] is an object literal when
    given. *)
Record config : Type := mkConfig {
  inputPath : value;
  outputPath : value;
  templates : value;
  globalVars : option (list (string * value));
  data : value;
  srcSassPath : value;
  destCssPath : value;
  sassSourceMap : value;
  purgeCssContent : value;
  cssFilesToPurge : value;
  purgeCssSourceMap : value;
  minify : value
}.

(** {inputPath, outputPath} *)
Definition with_paths (i o : value) : config :=
  mkConfig i o VUndefined None VUndefined VUndefined VUndefined VUndefined
           VUndefined VUndefined VUndefined VUndefined.

(** {inputPath, outputPath, minify} *)
Definition with_minify (i o m : value) : config :=
  mkConfig i o VUndefined None VUndefined VUndefined VUndefined VUndefined
           VUndefined VUndefined VUndefined m.

(** {inputPath, outputPath, templates, globalVars, data} *)
Definition with_templates (i o t : value)
  (g : option (list (string * value))) (d : value) : config :=
  mkConfig i o t g d VUndefined VUndefined VUndefined VUndefined VUndefined
           VUndefined VUndefined.

(** {srcSassPath, destCssPath, sassSourceMap, purgeCssContent,
     cssFilesToPurge, purgeCssSourceMap} *)
Definition with_sass (src dest sm content css pm : value) : config :=
  mkConfig VUndefined VUndefined VUndefined None VUndefined src dest sm
           content css pm VUndefined.

(* ------------------------------------------------------------------ *)
(** ** The stages *)

Notation "f ;; k" := (f k) (at level 61, right associativity, only parsing).

Definition when (b : bool) (f : js -> js) (k : js) : js :=
  if b then f k else k.

Definition throw_if (b : bool) (e : value) (k : js) : js :=
  if b then Throw e else k.

(** [fs.writeFile(path, data, cb)] *)
Definition writeFile (w : world) (path data : value)
  (cb : value -> js) (k : js) : js :=
  Call (FsWriteFile path data) ;;
  match fs_writeFile w path data with
  | SyncThrow e => Throw e
  | Completes r =>
      Later (Call (FsWriteFileDone path r) ;; cb (cb_write_err r)) ;; k
  end.

(** [fs.readFile(path, 'utf8', cb)] *)
Definition readFile (w : world) (path : value)
  (cb : value -> value -> js) (k : js) : js :=
  Call (FsReadFile path) ;;
  match fs_readFile w path with
  | SyncThrow e => Throw e
  | Completes r =>
      Later (Call (FsReadFileDone path r) ;; cb (cb_err r) (cb_data r)) ;; k
  end.

(** [path.basename] accepts strings only. *)
Definition basename (w : world) (v : value) : value + string :=
  match v with
  | VStr s => inr (path_basename w s)
  | _ => inl (VTypeError "The path argument must be of type string")
  end.

Section Stages.

Variable w : world.

(** *** compileNunjucks (index.js, lines 22-46) *)

Fixpoint add_globals (tpl : value) (vars : list (string * value))
  (keys : list string) (k : js) : js :=
  match keys with
  | [] => k
  | globalVar :: keys' =>
      let globalVarVal :=
        match assoc globalVar vars with
        | Some v => v
        | None => VUndefined
        end in
      Call (NunjucksConfigure tpl) ;;
      Call (NunjucksAddGlobal globalVar globalVarVal) ;;
      add_globals tpl vars keys' k
  end.

(** [globalVars = {}] and [data = {}]. *)
Definition global_vars (a : config) : list (string * value) :=
  match globalVars a with
  | Some g => g
  | None => []
  end.

Definition render_context (a : config) : value :=
  default_param (VObj []) (data a).

Definition render_answer (a : config) : string + value :=
  nunjucks_render w (templates a) (global_vars a) (inputPath a)
                  (render_context a).

Definition compileNunjucks (a : config) : js :=
  NewPromise (fun p =>
    throw_if (negb (truthy (inputPath a)))
      (VError "No inputPath provided to compileNunjucks") ;;
    throw_if (negb (truthy (outputPath a)))
      (VError "No outputPath provided to compileNunjucks") ;;
    throw_if (negb (truthy (templates a)))
      (VError "No templates provided to compileNunjucks") ;;
    Call (ConsoleLog
      [VStr ("Compiling Nunjucks templates from "
             ++ to_str (inputPath a))%string]) ;;
    add_globals (templates a) (global_vars a) (map fst (global_vars a)) ;;
    Call (NunjucksRender (inputPath a) (render_context a)) ;;
    Later
      (let err := cb_err (render_answer a) in
       let res := cb_data (render_answer a) in
       if truthy err
       then Reject p err ;; Done
       else
         Call (ConsoleLog
           [VStr ("Beautifying " ++ to_str (outputPath a)
                  ++ " from Nunjucks")%string]) ;;
         Call (Pretty res) ;;
         match pretty w res with
         | inl e => Throw e
         | inr beautifiedHtml =>
             writeFile w (outputPath a) beautifiedHtml
               (fun writeFileErr =>
                  if truthy writeFileErr
                  then Reject p writeFileErr ;; Done
                  else Resolve p VUndefined ;; Done) ;;
             Done
         end) ;;
    Done)
  (fun _ => Done).

(** *** compileSassAndPurgeCss (index.js, lines 48-109) *)

(** The local helper [write]. *)
Definition write (path filedata : value) (k : pid -> js) : js :=
  NewPromise (fun q =>
    writeFile w path filedata
      (fun err =>
         when (truthy err) (Reject q err) ;;
         Resolve q VUndefined ;;
         Done) ;;
    Done) k.

Fixpoint warn_each (ws : list value) (k : js) : js :=
  match ws with
  | [] => k
  | warn :: ws' =>
      Call (ConsoleWarn [VStr (to_str warn)]) ;; warn_each ws' k
  end.

Definition warnings_of (res : value) : list value :=
  match get_prop res "warnings" with
  | Some (VArr ws) => ws
  | _ => []
  end.

Definition not_an_object : value :=
  VTypeError "Cannot read properties of undefined".

(** The [async] callback of [purgeCssResults.forEach]. *)
Definition prefix_and_save (purgeCssResult : value) (_ : pid) : js :=
  NewPromise (fun q =>
    match get_prop purgeCssResult "css" with
    | None => Throw not_an_object
    | Some css =>
        Call (PostcssProcess css) ;;
        let r := postcss_process w css in
        Extern (fst r) (settled_as prefixed_value (snd r))
          (fun lazy =>
        Then lazy (fun autoprefixedResult =>
          warn_each (warnings_of autoprefixedResult) ;;
          match get_prop autoprefixedResult "css" with
          | Some c => Resolve q c ;; Done
          | None => Throw not_an_object
          end)
          (fun _ => Done))
    end)
  (fun q =>
  Await q (fun css' =>
    (* purgeCssResult.css = css' *)
    match get_prop purgeCssResult "file" with
    | None => Throw not_an_object
    | Some file =>
        Call (FsWriteFileSync file css') ;;
        match fs_writeFileSync w file css' with
        | Some e => Throw e
        | None => Done
        end
    end)).

Fixpoint for_each (items : list value) (f : value -> js -> js) (k : js)
  : js :=
  match items with
  | [] => k
  | x :: xs => f x (for_each xs f k)
  end.

(** Step 4: [purgeCssResults.forEach(async (purgeCssResult) => ...)],
    after which the body of the stage ends. *)
Definition step4 (purgeCssResults : value) : js :=
  match purgeCssResults with
  | VArr items =>
      for_each items
        (fun r k => Async (prefix_and_save r) (fun _ => k)) Done
  | _ => Throw (VTypeError "purgeCssResults.forEach is not a function")
  end.

Definition compileSassAndPurgeCss (a : config) : js :=
  Async (fun _ =>
    let src := srcSassPath a in
    let dest := destCssPath a in
    let sourceMap := default_param (VBool true) (sassSourceMap a) in
    let purgeMap := default_param (VBool true) (purgeCssSourceMap a) in
    throw_if (negb (truthy src))
      (VError "No srcSassPath provided to compileSassAndPurgeCss") ;;
    throw_if (negb (truthy dest))
      (VError "No destCssPath provided to compileSassAndPurgeCss") ;;
    Call (ConsoleLog
      [VStr ("Rendering Sass to CSS from " ++ to_str src)%string]) ;;
    Call (SassRenderSync src dest sourceMap) ;;
    match sass_renderSync w src dest sourceMap with
    | inl e => Throw e
    | inr sassResult =>
        write dest (sass_css sassResult) (fun cssFinished =>
        (if strict_eq_true sourceMap
         then write (VStr (to_str dest ++ ".map")%string)
                    (sass_map sassResult)
         else fun _ =>
           (* new Promise() without an executor *)
           Throw (VTypeError
                    "Promise resolver undefined is not a function"))
        (fun cssSourceMapFinished =>
        All [cssFinished; cssSourceMapFinished] (fun both =>
        Await both (fun _ =>
        Call (ConsoleLog
          [VStr ("Purging unused CSS for " ++ to_str dest)%string]) ;;
        Call (PurgeCss (purgeCssContent a) (cssFilesToPurge a) purgeMap) ;;
        let r := purge w (purgeCssContent a) (cssFilesToPurge a) purgeMap in
        Extern (fst r)
          (settled_as (fun rs => VArr (map purged_value rs)) (snd r))
          (fun purging =>
        Await purging step4)))))
    end)
  (fun _ => Done).

(** *** babelAndMinify (index.js, lines 111-145) *)

Definition babel_presets (minify_arg : value) : list string :=
  let flag := default_param (VBool true) minify_arg in
  ["@babel/env"] ++ (if strict_eq_true flag then ["minify"] else []).

Definition babelAndMinify (a : config) : js :=
  throw_if (negb (truthy (inputPath a)))
    (VError "No inputPath provided to babelAndMinify") ;;
  throw_if (negb (truthy (outputPath a)))
    (VError "No outputPath provided to babelAndMinify") ;;
  NewPromise (fun p =>
    let presets := babel_presets (minify a) in
    Call (BabelTransformFile (inputPath a) presets) ;;
    let r := babel_transformFile w (inputPath a) presets in
    Extern (fst r) (settled_as transformed_value (snd r))
      (fun transforming =>
    Then transforming (fun babelAndMinifyResult =>
      match get_prop babelAndMinifyResult "code" with
      | None => Throw not_an_object
      | Some code =>
          writeFile w (outputPath a) code
            (fun err =>
               if negb (truthy err)
               then Resolve p VUndefined ;; Done
               else Call (ConsoleLog [err]) ;; Done) ;;
          Done
      end)
      (fun _ => Done)))
  (fun _ => Done).

(** *** uglify (index.js, lines 147-159) *)

Definition uglify (a : config) : js :=
  NewPromise (fun p =>
    when (negb (truthy (inputPath a)))
      (Reject p (VError "No input path provided to uglify")) ;;
    when (negb (truthy (outputPath a)))
      (Reject p (VError "No output path provided to uglify")) ;;
    Call (ConsoleLog
      [VStr ("Minifying " ++ to_str (inputPath a))%string]) ;;
    readFile w (inputPath a)
      (fun err filedata =>
         when (truthy err) (Reject p err) ;;
         match basename w (inputPath a) with
         | inl e => Throw e
         | inr name =>
             Call (UglifyMinify name filedata) ;;
             let code := uglify_minify w name filedata in
             writeFile w (outputPath a) code
               (fun uglifyOutputErr =>
                  when (truthy uglifyOutputErr)
                    (Reject p uglifyOutputErr) ;;
                  Resolve p VUndefined ;;
                  Done) ;;
             Done
         end) ;;
    Done)
  (fun _ => Done).

(** *** beautifyHtml (index.js, lines 161-173) *)

Definition beautifyHtml (a : config) : js :=
  NewPromise (fun p =>
    when (negb (truthy (inputPath a)))
      (Reject p (VError "No input path provided to beautifyHtml")) ;;
    when (negb (truthy (outputPath a)))
      (Reject p (VError "No output path provided to beautifyHtml")) ;;
    Call (ConsoleLog
      [VStr ("Beautifying HTML for " ++ to_str (inputPath a))%string]) ;;
    readFile w (inputPath a)
      (fun readFileErr filedata =>
         when (truthy readFileErr) (Reject p readFileErr) ;;
         Call (Pretty filedata) ;;
         match pretty w filedata with
         | inl e => Throw e
         | inr beautifiedHtml =>
             writeFile w (outputPath a) beautifiedHtml
               (fun writeFileErr =>
                  when (truthy writeFileErr) (Reject p writeFileErr) ;;
                  Resolve p VUndefined ;;
                  Done) ;;
             Done
         end) ;;
    Done)
  (fun _ => Done).

End Stages.

(* ------------------------------------------------------------------ *)
(** ** Properties of traces and of states *)

Definition extends (s s' : state) : Prop :=
  exists more, trace s' = trace s ++ more.

(** No event of the kind [bad] occurs. *)
Definition never (bad : event -> bool) (tr : list event) : Prop :=
  forall ev, In ev tr -> bad ev = false.

(** Every event of the kind [late] comes after an occurrence of [a]. *)
Definition precedes (a : event) (late : event -> bool) (tr : list event)
  : Prop :=
  forall pre ev post, tr = pre ++ ev :: post -> late ev = true -> In a pre.

(** [s'] adds to the trace of [s] no event of the kind [bad]. *)
Definition quietly (bad : event -> bool) (s s' : state) : Prop :=
  exists more, trace s' = trace s ++ more /\ never bad more.

Definition stable (s s' : state) : Prop :=
  next s <= next s'
  /\ forall p o, p < next s -> status_of s p = Some o ->
                 status_of s' p = Some o.

(** [s'] leaves the promise [p] of [s] as it is. *)
Definition keeps (p : pid) (s s' : state) : Prop :=
  next s <= next s' /\ status_of s' p = status_of s p.

Definition ctx_pid (c : ctx) : option pid :=
  match c with
  | CTop => None
  | CExecutor p | CReturn p => Some p
  end.

(** [hushed bad j]: running [j] up to its end or its first [await] makes no
    call of the kind [bad]. *)
Fixpoint hushed (bad : event -> bool) (j : js) : Prop :=
  match j with
  | Done | Throw _ | Await _ _ => True
  | Call ev k => bad ev = false /\ hushed bad k
  | NewPromise f k | Async f k =>
      (forall p, hushed bad (f p)) /\ (forall p, hushed bad (k p))
  | Resolve _ _ k | Reject _ _ k | Later _ k => hushed bad k
  | Then _ _ k | All _ k | Extern _ _ k => forall p, hushed bad (k p)
  end.

(** [spares p j]: running [j] up to its end or its first [await] settles no
    promise named [p]; the promises it makes are named apart from [p]. *)
Fixpoint spares (p : pid) (j : js) : Prop :=
  match j with
  | Done | Throw _ | Await _ _ => True
  | Call _ k | Later _ k => spares p k
  | NewPromise f k | Async f k =>
      forall q, q <> p -> spares p (f q) /\ spares p (k q)
  | Resolve q _ k | Reject q _ k => q <> p /\ spares p k
  | Then _ _ k | All _ k | Extern _ _ k => forall q, q <> p -> spares p (k q)
  end.

(* ------------------------------------------------------------------ *)
(** ** Events and values the statements speak of *)

Definition requests_minify (ev : event) : bool :=
  match ev with
  | BabelTransformFile _ presets => existsb (String.eqb "minify") presets
  | _ => false
  end.

Definition same_path (p q : value) : bool :=
  match p, q with
  | VStr x, VStr y => String.eqb x y
  | _, _ => false
  end.

Definition writes_to (q : value) (ev : event) : bool :=
  match ev with
  | FsWriteFile p _ | FsWriteFileDone p _ | FsWriteFileSync p _ =>
      same_path p q
  | _ => false
  end.

(** `${destCssPath}.map` *)
Definition map_path (dest : value) : value :=
  VStr (to_str dest ++ ".map")%string.

Definition no_resolver : value :=
  VTypeError "Promise resolver undefined is not a function".

Definition emit_all (evs : list event) (s : state) : state :=
  mkState (next s) (promises s) (remaining s) (micro s) (pending s) (sched s)
          (trace s ++ evs).

Fixpoint globals_events (tpl : value) (vars : list (string * value))
  (keys : list string) : list event :=
  match keys with
  | [] => []
  | key :: keys' =>
      NunjucksConfigure tpl
        :: NunjucksAddGlobal key
             (match assoc key vars with Some v => v | None => VUndefined end)
        :: globals_events tpl vars keys'
  end.

Definition purge_answer (w : world) (a : config) : value + list purged :=
  snd (purge w (purgeCssContent a) (cssFilesToPurge a)
             (default_param (VBool true) (purgeCssSourceMap a))).

Definition purge_call (a : config) : event :=
  PurgeCss (purgeCssContent a) (cssFilesToPurge a)
           (default_param (VBool true) (purgeCssSourceMap a)).

(* ------------------------------------------------------------------ *)
(** ** Example worlds and calls *)

(** A world in which every collaborator succeeds, for the examples. *)
Definition demo_world : world :=
  mkWorld
    (fun _ _ _ _ => inr (VStr "<p>Acme</p>"))
    (fun text => inr text)
    (fun _ _ _ => inr (mkSass (VStr ".used{color:red}") (VStr "{}")))
    (fun _ _ _ =>
       (false, inr [mkPurged (VStr "a.css") (VStr ".used{color:red}")]))
    (fun css => (false, inr (mkPrefixed css [])))
    (fun _ _ => (false, inr (VStr "var a=1;")))
    (fun _ _ => VStr "var a=1;")
    (fun s => s)
    (fun _ => Completes (inr (VStr "var a = 1;")))
    (fun _ _ => Completes None)
    (fun _ _ => None).

Definition home_page : config :=
  with_templates (VStr "home.njk") (VStr "index.html") (VStr "templates")
                 (Some [("siteName", VStr "Acme")]) VUndefined.

Definition style_sheet (sourceMap : value) : config :=
  with_sass (VStr "main.scss") (VStr "main.css") sourceMap
            (VArr [VStr "index.html"]) (VArr [VStr "main.css"]) VUndefined.

Definition render_fails : world :=
  mkWorld (fun _ _ _ _ => inl "Template render error: not found")
          (pretty demo_world) (sass_renderSync demo_world) (purge demo_world)
          (postcss_process demo_world) (babel_transformFile demo_world)
          (uglify_minify demo_world) (path_basename demo_world)
          (fs_readFile demo_world) (fs_writeFile demo_world)
          (fs_writeFileSync demo_world).

Definition read_fails : world :=
  mkWorld (nunjucks_render demo_world)
          (pretty demo_world) (sass_renderSync demo_world) (purge demo_world)
          (postcss_process demo_world) (babel_transformFile demo_world)
          (uglify_minify demo_world) (path_basename demo_world)
          (fun _ => Completes (inl "ENOENT: no such file"))
          (fs_writeFile demo_world)
          (fs_writeFileSync demo_world).

Definition transform_fails : world :=
  mkWorld (nunjucks_render demo_world)
          (pretty demo_world) (sass_renderSync demo_world) (purge demo_world)
          (postcss_process demo_world)
          (fun _ _ => (false, inl (VError "SyntaxError: unexpected token")))
          (uglify_minify demo_world) (path_basename demo_world)
          (fs_readFile demo_world) (fs_writeFile demo_world)
          (fs_writeFileSync demo_world).

(* ------------------------------------------------------------------ *)
(** ** openInBrowser (index.js, lines 175-182) *)

(** What [exec] hands to its callback: the error if the command failed, and
    what the command printed. *)
Record exec_answer : Type := mkExec {
  exec_err : option string;
  exec_stdout : string;
  exec_stderr : string
}.

Definition dquote : string := String (Ascii.ascii_of_nat 34) EmptyString.

(** `open -a "${browser}" "${openInBrowserPath}"` *)
Definition open_command (browser openInBrowserPath : value) : string :=
  ("open -a " ++ dquote ++ to_str browser ++ dquote ++ " "
   ++ dquote ++ to_str openInBrowserPath ++ dquote)%string.

(** The call of [exec] is the pair of the command line it is given and of
    the code that runs from then on: the callback is left with the host and
    the function returns. *)
Definition openInBrowser (shell : string -> exec_answer)
  (browser openInBrowserPath : value) : string * js :=
  let command := open_command browser openInBrowserPath in
  (command,
   Later
     (let err := cb_write_err (exec_err (shell command)) in
      let stdout := VStr (exec_stdout (shell command)) in
      let stderr := VStr (exec_stderr (shell command)) in
      when (truthy stdout) (Call (ConsoleLog [stdout])) ;;
      when (truthy stderr) (Call (ConsoleLog [stderr])) ;;
      if truthy err then Throw err else Done) ;;
   Done).

(* ------------------------------------------------------------------ *)
(** ** More events and worlds the statements speak of *)

Definition is_configure (ev : event) : bool :=
  match ev with
  | NunjucksConfigure _ => true
  | _ => false
  end.

Definition is_postcss (ev : event) : bool :=
  match ev with
  | PostcssProcess _ => true
  | _ => false
  end.

(** The lines a run of [openInBrowser] logs. *)
Definition shell_logs (x : exec_answer) : list event :=
  (if truthy (VStr (exec_stdout x))
   then [ConsoleLog [VStr (exec_stdout x)]] else [])
  ++ (if truthy (VStr (exec_stderr x))
      then [ConsoleLog [VStr (exec_stderr x)]] else []).

Definition write_fails : world :=
  mkWorld (nunjucks_render demo_world)
          (pretty demo_world) (sass_renderSync demo_world) (purge demo_world)
          (postcss_process demo_world) (babel_transformFile demo_world)
          (uglify_minify demo_world) (path_basename demo_world)
          (fs_readFile demo_world)
          (fun _ _ => Completes (Some "EACCES: permission denied"))
          (fs_writeFileSync demo_world).

Definition formatter_throws : world :=
  mkWorld (nunjucks_render demo_world)
          (fun _ => inl (VTypeError "str.replace is not a function"))
          (sass_renderSync demo_world) (purge demo_world)
          (postcss_process demo_world) (babel_transformFile demo_world)
          (uglify_minify demo_world) (path_basename demo_world)
          (fs_readFile demo_world) (fs_writeFile demo_world)
          (fs_writeFileSync demo_world).

Definition sass_fails : world :=
  mkWorld (nunjucks_render demo_world) (pretty demo_world)
          (fun _ _ _ => inl (VError "Undefined variable."))
          (purge demo_world)
          (postcss_process demo_world) (babel_transformFile demo_world)
          (uglify_minify demo_world) (path_basename demo_world)
          (fs_readFile demo_world) (fs_writeFile demo_world)
          (fs_writeFileSync demo_world).

Definition purge_fails : world :=
  mkWorld (nunjucks_render demo_world) (pretty demo_world)
          (sass_renderSync demo_world)
          (fun _ _ _ => (false, inl (VError "ENOENT: main.css")))
          (postcss_process demo_world) (babel_transformFile demo_world)
          (uglify_minify demo_world) (path_basename demo_world)
          (fs_readFile demo_world) (fs_writeFile demo_world)
          (fs_writeFileSync demo_world).

(** Step 4 goes wrong throughout: the prefixer fails on every style sheet. *)
Definition prefixer_fails : world :=
  mkWorld (nunjucks_render demo_world) (pretty demo_world)
          (sass_renderSync demo_world) (purge demo_world)
          (fun _ => (false, inl (VError "CssSyntaxError")))
          (babel_transformFile demo_world)
          (uglify_minify demo_world) (path_basename demo_world)
          (fs_readFile demo_world) (fs_writeFile demo_world)
          (fs_writeFileSync demo_world).

Definition page_without_globals : config :=
  with_templates (VStr "home.njk") (VStr "index.html") (VStr "templates")
                 None VUndefined.

Definition open_fails : string -> exec_answer :=
  fun _ => mkExec (Some "Command failed: open") ""
                  "Unable to find application named 'Firefoxx'".

Definition fulfils (p : pid) (ev : event) : bool :=
  match ev with
  | Settled q (Fulfilled _) => Nat.eqb p q
  | _ => false
  end.

(** The calls of the prefixer that step 4 makes, one per purge result. *)
Definition prefixings (rs : list purged) : list event :=
  map (fun r => PostcssProcess (purged_css r)) rs.

(** The purger keeps two style sheets. *)
Definition two_sheets : world :=
  mkWorld (nunjucks_render demo_world) (pretty demo_world)
          (sass_renderSync demo_world)
          (fun _ _ _ =>
             (false, inr [mkPurged (VStr "a.css") (VStr ".a{}");
                          mkPurged (VStr "b.css") (VStr ".b{}")]))
          (postcss_process demo_world) (babel_transformFile demo_world)
          (uglify_minify demo_world) (path_basename demo_world)
          (fs_readFile demo_world) (fs_writeFile demo_world)
          (fs_writeFileSync demo_world).

(* ------------------------------------------------------------------ *)
(** ** The trace only grows *)

Lemma extends_refl s : extends s s.
Proof. exists []. now rewrite app_nil_r. Qed.

Lemma extends_trans s1 s2 s3 :
  extends s1 s2 -> extends s2 s3 -> extends s1 s3.
Proof.
  intros [m1 H1] [m2 H2]. exists (m1 ++ m2).
  now rewrite H2, H1, app_assoc.
Qed.

Lemma extends_same s s' : trace s' = trace s -> extends s s'.
Proof. intros H. exists []. now rewrite app_nil_r. Qed.

Lemma extends_emit ev s : extends s (emit ev s).
Proof. now exists [ev]. Qed.

Lemma extends_settle p o s : extends s (settle p o s).
Proof.
  unfold settle. destruct (status (promises s p)).
  - apply extends_refl.
  - now exists [Settled p o].
Qed.

Lemma extends_subscribe p rx s : extends s (subscribe p rx s).
Proof.
  unfold subscribe. destruct (status (promises s p)); now apply extends_same.
Qed.

Lemma extends_join r ps s : extends s (join r ps s).
Proof.
  unfold join. destruct ps as [|p ps'].
  - apply extends_settle.
  - apply extends_trans with (set_remaining r (List.length (p :: ps')) s).
    + now apply extends_same.
    + generalize (set_remaining r (List.length (p :: ps')) s).
      generalize (p :: ps'). intros l.
      induction l as [|x l IH]; intros s0; cbn [fold_left].
      * apply extends_refl.
      * eapply extends_trans; [apply extends_subscribe | apply IH].
Qed.

Lemma extends_finish c s : extends s (finish c s).
Proof. destruct c; cbn; auto using extends_refl, extends_settle. Qed.

Lemma extends_raise c e s : extends s (raise c e s).
Proof. destruct c; cbn; auto using extends_emit, extends_settle. Qed.

Create HintDb grows.
#[local] Hint Resolve extends_refl extends_emit extends_settle
  extends_subscribe extends_join extends_finish extends_raise : grows.

Lemma extends_run j : forall c s, extends s (run c j s).
Proof.
  induction j as [ | e | ev k IHk | ex IHex k IHk | p v k IHk | p e k IHk
                 | body IHb k IHk | p k _ | p f _ k IHk | ps k IHk
                 | cb _ k IHk | ready o k IHk ];
    intros c s; cbn [run]; auto with grows.
  - eapply extends_trans; [apply extends_emit | apply IHk].
  - eapply extends_trans; [ | apply IHk].
    eapply extends_trans; [ | apply IHex]. now apply extends_same.
  - eapply extends_trans; [apply extends_settle | apply IHk].
  - eapply extends_trans; [apply extends_settle | apply IHk].
  - eapply extends_trans; [ | apply IHk].
    eapply extends_trans; [ | apply IHb]. now apply extends_same.
  - eapply extends_trans; [ | apply IHk].
    eapply extends_trans; [ | apply extends_subscribe]. now apply extends_same.
  - eapply extends_trans; [ | apply IHk].
    eapply extends_trans; [ | apply extends_join]. now apply extends_same.
  - eapply extends_trans; [ | apply IHk]. now apply extends_same.
  - destruct ready; (eapply extends_trans; [ | apply IHk]);
      now apply extends_same.
Qed.

Lemma extends_step_task t s : extends s (step_task t s).
Proof.
  destruct t as [c j | r [v | e] | p o]; cbn [step_task];
    auto using extends_run with grows.
  destruct (remaining s r) as [|[|n]].
  - eapply extends_trans; [ | apply extends_settle]. now apply extends_same.
  - eapply extends_trans; [ | apply extends_settle]. now apply extends_same.
  - now apply extends_same.
Qed.

Lemma extends_turn s s' : turn s = Some s' -> extends s s'.
Proof.
  unfold turn. destruct (micro s) as [|t ts].
  - destruct (extract _ _) as [[t ts]|]; [ | discriminate].
    intros [= <-]. eapply extends_trans; [ | apply extends_step_task].
    now apply extends_same.
  - intros [= <-]. eapply extends_trans; [ | apply extends_step_task].
    now apply extends_same.
Qed.

Lemma extends_loop n : forall s, extends s (loop n s).
Proof.
  induction n as [|n IH]; intros s; cbn [loop].
  - apply extends_refl.
  - destruct (turn s) as [s'|] eqn:E.
    + eapply extends_trans; [apply (extends_turn _ _ E) | apply IH].
    + apply extends_refl.
Qed.

Lemma loop_add a : forall b s, loop (a + b) s = loop b (loop a s).
Proof.
  induction a as [|a IH]; intros b s; cbn [loop Nat.add].
  - reflexivity.
  - destruct (turn s) as [s'|] eqn:E.
    + apply IH.
    + destruct b; cbn [loop]; [reflexivity | now rewrite E].
Qed.

Lemma turn_idle s : idle s = true -> turn s = None.
Proof.
  unfold idle, turn. destruct (micro s); [ | discriminate].
  destruct (pending s); [intros _; reflexivity | discriminate].
Qed.

Lemma loop_idle n s : idle s = true -> loop n s = s.
Proof.
  intros H. destruct n; cbn [loop]; [reflexivity | ].
  now rewrite (turn_idle _ H).
Qed.

(** Any run is a prefix of, or extends, the run that stops after [n] turns. *)
Lemma loop_compare n fuel s :
  extends (loop fuel s) (loop n s) \/ extends (loop n s) (loop fuel s).
Proof.
  destruct (Nat.le_gt_cases fuel n) as [H | H].
  - left. replace n with (fuel + (n - fuel)) by lia.
    rewrite loop_add. apply extends_loop.
  - right. replace fuel with (n + (fuel - n)) by lia.
    rewrite loop_add. apply extends_loop.
Qed.

Lemma loop_settled n fuel s :
  idle (loop n s) = true ->
  extends (loop fuel s) (loop n s) /\ (n <= fuel -> loop fuel s = loop n s).
Proof.
  intros H. split.
  - destruct (Nat.le_gt_cases fuel n) as [L | L].
    + replace n with (fuel + (n - fuel)) by lia.
      rewrite loop_add. apply extends_loop.
    + replace fuel with (n + (fuel - n)) by lia.
      rewrite loop_add, (loop_idle _ _ H). apply extends_refl.
  - intros L. replace fuel with (n + (fuel - n)) by lia.
    now rewrite loop_add, (loop_idle _ _ H).
Qed.

(* ------------------------------------------------------------------ *)
(** ** Properties of traces *)

Lemma never_nil bad : never bad [].
Proof. intros ev []. Qed.

Lemma never_cons bad ev tr :
  bad ev = false -> never bad tr -> never bad (ev :: tr).
Proof. intros H1 H2 x [<- | H]; auto. Qed.

Lemma never_app bad tr1 tr2 :
  never bad tr1 -> never bad tr2 -> never bad (tr1 ++ tr2).
Proof. intros H1 H2 x H. apply in_app_or in H as [H | H]; auto. Qed.

Lemma never_prefix bad tr more : never bad (tr ++ more) -> never bad tr.
Proof. intros H x Hx. apply H, in_or_app. now left. Qed.

Lemma never_forallb bad tr :
  forallb (fun ev => negb (bad ev)) tr = true -> never bad tr.
Proof.
  rewrite forallb_forall. intros H ev Hin.
  specialize (H ev Hin). now destruct (bad ev).
Qed.

Lemma never_precedes a late tr : never late tr -> precedes a late tr.
Proof.
  intros H pre ev post -> Hev.
  rewrite H in Hev; [discriminate | ].
  apply in_or_app. right. now left.
Qed.

Lemma precedes_prefix a late tr more :
  precedes a late (tr ++ more) -> precedes a late tr.
Proof.
  intros H pre ev post -> Hev.
  apply (H pre ev (post ++ more)); [ | exact Hev].
  now rewrite <- app_assoc.
Qed.

Lemma precedes_cons a late ev tr :
  late ev = false -> ev = a \/ precedes a late tr ->
  precedes a late (ev :: tr).
Proof.
  intros Hev Htl pre x post E Hx.
  destruct pre as [|y pre]; cbn in E; injection E as -> ->.
  - congruence.
  - destruct Htl as [-> | Htl]; [now left | right].
    now apply (Htl pre x post).
Qed.

(** Once [a] has occurred anything may follow. *)
Lemma precedes_extend a late tr more :
  precedes a late tr -> In a tr -> precedes a late (tr ++ more).
Proof.
  intros Hp Hin pre ev post E Hev.
  apply app_eq_app in E as [l [[E1 E2] | [E1 E2]]].
  - destruct l as [|x l]; cbn in E2.
    + rewrite app_nil_r in E1. now subst pre.
    + injection E2 as <- _. now apply (Hp pre ev l).
  - subst pre. apply in_or_app. now left.
Qed.

(** What holds of the trace after [n] turns holds of every run, provided
    the run is over after [n] turns or the guarding event has occurred. *)
Lemma never_always bad s n :
  idle (loop n s) = true -> never bad (trace (loop n s)) ->
  forall fuel, never bad (trace (loop fuel s)).
Proof.
  intros Hidle H fuel.
  destruct (loop_settled n fuel s Hidle) as [[more E] _].
  rewrite E in H. now apply never_prefix in H.
Qed.

Lemma precedes_always a late s n :
  precedes a late (trace (loop n s)) ->
  In a (trace (loop n s)) \/ idle (loop n s) = true ->
  forall fuel, precedes a late (trace (loop fuel s)).
Proof.
  intros Hp Hor fuel.
  destruct Hor as [Hin | Hidle].
  - destruct (loop_compare n fuel s) as [[more E] | [more E]].
    + rewrite E in Hp. now apply precedes_prefix in Hp.
    + rewrite E. now apply precedes_extend.
  - destruct (loop_settled n fuel s Hidle) as [[more E] _].
    rewrite E in Hp. now apply precedes_prefix in Hp.
Qed.

Lemma in_trace_loop ev s fuel : In ev (trace s) -> In ev (trace (loop fuel s)).
Proof.
  intros H. destruct (extends_loop fuel s) as [more ->].
  apply in_or_app. now left.
Qed.

(* ------------------------------------------------------------------ *)
(** ** babelAndMinify: the minify flag *)

(** C7: when the [minify] option is omitted its default [true] applies: the
    stage is the same program as with [minify: true], its preset list is
    ['@babel/env', 'minify'], and that list is what the transformer is
    called with. *)
Theorem babelAndMinify_minify_default (w : world) (i o : value) :
  babelAndMinify w (with_minify i o VUndefined)
    = babelAndMinify w (with_minify i o (VBool true))
  /\ babel_presets VUndefined = ["@babel/env"; "minify"]
  /\ (truthy i = true -> truthy o = true ->
      forall choices fuel,
        In (BabelTransformFile i ["@babel/env"; "minify"])
           (trace (exec (babelAndMinify w (with_minify i o VUndefined))
                        choices fuel))).
Proof.
  split; [reflexivity | split; [reflexivity | ]].
  intros Hi Ho choices fuel. unfold exec. apply in_trace_loop.
  unfold babelAndMinify, throw_if. cbn [inputPath outputPath minify with_minify].
  rewrite Hi, Ho. cbn [negb run].
  destruct (babel_transformFile w i (babel_presets VUndefined)) as [[|] r];
    cbn; auto.
Qed.

Lemma babelAndMinify_minify_default_witness :
  In (BabelTransformFile (VStr "src.js") ["@babel/env"; "minify"])
     (trace (exec (babelAndMinify demo_world
                     (with_minify (VStr "src.js") (VStr "out.js") VUndefined))
                  [] 4)).
Proof.
  apply (proj2 (proj2 (babelAndMinify_minify_default
                         demo_world (VStr "src.js") (VStr "out.js"))));
    reflexivity.
Defined.

(** [never bad] of an explicit list of events. *)
Ltac never_list :=
  repeat (apply never_cons; [first [reflexivity | eassumption] | ]);
  apply never_nil.

(** [never bad] of a run, from the trace of the finished run. *)
Ltac finished turns :=
  apply never_always with (n := turns);
  [ cbn; reflexivity | cbn; apply never_forallb; reflexivity ].

(** C10, as stated, fails: [undefined] is a value other than [true], and a
    call with [minify: undefined] gets the default and so the 'minify'
    preset. *)
Lemma babelAndMinify_minify_undefined_counterexample :
  ~ (forall m : value, m <> VBool true ->
       never requests_minify
         (trace (exec (babelAndMinify demo_world
                         (with_minify (VStr "src.js") (VStr "out.js") m))
                      [] 0))).
Proof.
  intros H.
  assert (Hm : VUndefined <> VBool true) by discriminate.
  specialize (H VUndefined Hm
                (BabelTransformFile (VStr "src.js") ["@babel/env"; "minify"])).
  cbn in H. discriminate H. now left.
Qed.

(** C10 (amended): for every value of the [minify] option other than [true]
    and other than [undefined] (so also for 1 and 'yes'), the preset list is
    ['@babel/env'] alone: the transformer is called with it, and no call of
    the transformer ever asks for the 'minify' preset. *)
Theorem babelAndMinify_minify_strict (w : world) (i o m : value) :
  m <> VBool true -> m <> VUndefined ->
  babel_presets m = ["@babel/env"]
  /\ babel_presets (VNum 1) = ["@babel/env"]
  /\ babel_presets (VStr "yes") = ["@babel/env"]
  /\ (truthy i = true -> truthy o = true ->
      forall choices fuel,
        let tr := trace (exec (babelAndMinify w (with_minify i o m))
                              choices fuel) in
        In (BabelTransformFile i ["@babel/env"]) tr
        /\ never requests_minify tr).
Proof.
  intros Hm1 Hm2.
  assert (Hp : babel_presets m = ["@babel/env"]).
  { destruct m as [| |[|]| | | | | |]; try reflexivity; congruence. }
  repeat (split; [first [exact Hp | reflexivity] | ]).
  intros Hi Ho choices fuel tr. subst tr.
  unfold exec, babelAndMinify, throw_if.
  cbn [inputPath outputPath minify with_minify]. rewrite Hi, Ho, Hp.
  cbn [negb]. split.
  - apply in_trace_loop.
    destruct (babel_transformFile w i ["@babel/env"]) as [[|] r]; cbn; auto.
  - revert fuel.
    destruct (babel_transformFile w i ["@babel/env"]) as [[|] [e | code]];
      try (finished 3);
      destruct (fs_writeFile w o code) as [e | [msg | ]] eqn:Ew;
      apply never_always with (n := 5);
      cbn; rewrite ?Ew; cbn; auto; apply never_forallb; reflexivity.
Qed.

Lemma babelAndMinify_minify_strict_witness :
  babel_presets (VNum 1) = ["@babel/env"]
  /\ In (BabelTransformFile (VStr "src.js") ["@babel/env"])
        (trace (exec (babelAndMinify demo_world
                        (with_minify (VStr "src.js") (VStr "out.js")
                                     (VNum 1)))
                     [] 4)).
Proof.
  assert (H1 : VNum 1 <> VBool true) by discriminate.
  assert (H2 : VNum 1 <> VUndefined) by discriminate.
  pose proof (babelAndMinify_minify_strict
                demo_world (VStr "src.js") (VStr "out.js") (VNum 1) H1 H2)
    as (Hp & _ & _ & Hrun).
  split; [exact Hp | ].
  exact (proj1 (Hrun eq_refl eq_refl [] 4)).
Defined.

(* ------------------------------------------------------------------ *)
(** ** compileNunjucks: a render error *)

Lemma emit_all_nil s : emit_all [] s = s.
Proof. destruct s. unfold emit_all. cbn. now rewrite app_nil_r. Qed.

Lemma run_add_globals tpl vars keys k c :
  forall s,
    run c (add_globals tpl vars keys k) s
    = run c k (emit_all (globals_events tpl vars keys) s).
Proof.
  induction keys as [|key keys IH]; intros s; cbn [add_globals globals_events].
  - now rewrite emit_all_nil.
  - cbn [run]. rewrite IH. f_equal.
    unfold emit_all, emit. cbn. now rewrite <- !app_assoc.
Qed.

Lemma globals_events_quiet tpl vars keys :
  never is_file_io (globals_events tpl vars keys).
Proof.
  induction keys as [|key keys IH]; cbn [globals_events].
  - apply never_nil.
  - now repeat apply never_cons.
Qed.

Lemma never_weaken (bad bad' : event -> bool) tr :
  (forall ev, bad ev = false -> bad' ev = false) ->
  never bad tr -> never bad' tr.
Proof. intros H Hn ev Hin. apply H, Hn, Hin. Qed.

Lemma write_is_file_io ev : is_file_io ev = false -> is_write ev = false.
Proof. now destruct ev. Qed.

(** C6: when every required field is given and the template engine reports
    a render error, the returned promise (promise 0) is rejected with exactly
    that error as soon as the render callback has run, and no run ever
    performs a write. *)
Theorem compileNunjucks_render_error (w : world) (a : config) (msg : string) :
  truthy (inputPath a) = true ->
  truthy (outputPath a) = true ->
  truthy (templates a) = true ->
  render_answer w a = inl msg ->
  forall choices fuel,
    let s := exec (compileNunjucks w a) choices fuel in
    (1 <= fuel -> status_of s 0 = Some (Rejected (VError msg)))
    /\ (1 <= fuel -> In (Settled 0 (Rejected (VError msg))) (trace s))
    /\ never is_write (trace s).
Proof.
  intros Hi Ho Ht Hr choices.
  assert (E : forall fuel, 1 <= fuel ->
            exec (compileNunjucks w a) choices fuel
            = exec (compileNunjucks w a) choices 1
            /\ idle (exec (compileNunjucks w a) choices 1) = true).
  { intros fuel Hf. unfold exec, compileNunjucks, throw_if.
    rewrite Hi, Ho, Ht, Hr. cbn [negb run]. rewrite run_add_globals.
    cbn [run]. split.
    - now apply loop_settled.
    - reflexivity. }
  assert (T : trace (exec (compileNunjucks w a) choices 1)
              = ConsoleLog [VStr ("Compiling Nunjucks templates from "
                                  ++ to_str (inputPath a))%string]
                :: globals_events (templates a) (global_vars a)
                     (map fst (global_vars a))
                ++ [NunjucksRender (inputPath a) (render_context a);
                    Settled 0 (Rejected (VError msg))]).
  { unfold exec, compileNunjucks, throw_if.
    rewrite Hi, Ho, Ht, Hr. cbn [negb run]. rewrite run_add_globals.
    cbn. now rewrite <- app_assoc. }
  intros fuel s. subst s. repeat split.
  - intros Hf. destruct (E fuel Hf) as [-> _].
    unfold exec, compileNunjucks, throw_if.
    rewrite Hi, Ho, Ht, Hr. cbn [negb run]. rewrite run_add_globals.
    reflexivity.
  - intros Hf. destruct (E fuel Hf) as [-> _]. rewrite T.
    right. apply in_or_app. right. cbn. auto.
  - revert fuel. unfold exec. apply never_always with (n := 1).
    + exact (proj2 (E 1 (le_n 1))).
    + fold (exec (compileNunjucks w a) choices 1). rewrite T.
      apply never_cons; [reflexivity | ].
      apply never_app.
      * eapply never_weaken; [exact write_is_file_io | ].
        apply globals_events_quiet.
      * apply never_forallb. reflexivity.
Qed.

Lemma compileNunjucks_render_error_witness :
  let s := exec (compileNunjucks render_fails home_page) [] 3 in
  status_of s 0
    = Some (Rejected (VError "Template render error: not found"))
  /\ never is_write (trace s).
Proof.
  destruct (compileNunjucks_render_error
              render_fails home_page "Template render error: not found"
              eq_refl eq_refl eq_refl eq_refl [] 3) as (H1 & _ & H3).
  split; [apply H1; repeat constructor | exact H3].
Defined.

(* ------------------------------------------------------------------ *)
(** ** uglify: a read error does not stop the stage *)

Lemma loop_from n fuel s :
  idle (loop n s) = true -> n <= fuel -> loop fuel s = loop n s.
Proof. intros H. now apply loop_settled. Qed.

(** C9: when both paths are given and reading the input fails, the returned
    promise is rejected with the read error, and the read callback goes on
    all the same: the minifier is called on [undefined] and [fs.writeFile] is
    called on the output path with what the minifier gave; if that write
    succeeds the output file has been written although the stage reported
    failure. *)
Theorem uglify_read_error_continues
  (w : world) (a : config) (i msg : string) :
  inputPath a = VStr i ->
  truthy (inputPath a) = true ->
  truthy (outputPath a) = true ->
  fs_readFile w (VStr i) = Completes (inl msg) ->
  forall choices fuel, 1 <= fuel ->
    let s := exec (uglify w a) choices fuel in
    let name := path_basename w i in
    let code := uglify_minify w name VUndefined in
    status_of s 0 = Some (Rejected (VError msg))
    /\ (exists rest,
          trace s = [ConsoleLog [VStr ("Minifying " ++ i)%string];
                     FsReadFile (VStr i);
                     FsReadFileDone (VStr i) (inl msg);
                     Settled 0 (Rejected (VError msg));
                     UglifyMinify name VUndefined;
                     FsWriteFile (outputPath a) code] ++ rest)
    /\ (fs_writeFile w (outputPath a) code = Completes None ->
        2 <= fuel -> In (FsWriteFileDone (outputPath a) None) (trace s)).
Proof.
  intros Hp Hi Ho Hr choices fuel Hf. cbv zeta.
  unfold exec, uglify, when, readFile, writeFile, basename.
  rewrite Hi, Ho, Hp, Hr. cbn [negb to_str cb_err cb_data truthy].
  destruct (fs_writeFile w (outputPath a)
              (uglify_minify w (path_basename w i) VUndefined))
    as [e' | r] eqn:Ew.
  - rewrite (loop_from 1 fuel) by (cbn; try rewrite Ew; cbn; auto).
    cbn. repeat split.
    + eexists. reflexivity.
    + discriminate.
  - destruct fuel as [|[|fuel]]; [lia | | ].
    + cbn. repeat split.
      * eexists. reflexivity.
      * lia.
    + rewrite (loop_from 2 (S (S fuel)))
        by (cbn; destruct r; cbn; auto; lia).
      destruct r; cbn; repeat split; try (eexists; reflexivity);
        try discriminate; intros _ _; auto 10.
Qed.

Lemma uglify_read_error_continues_witness :
  let s := exec (uglify read_fails (with_paths (VStr "app.js")
                                               (VStr "app.min.js"))) [] 2 in
  status_of s 0 = Some (Rejected (VError "ENOENT: no such file"))
  /\ In (FsWriteFileDone (VStr "app.min.js") None) (trace s).
Proof.
  destruct (uglify_read_error_continues
              read_fails (with_paths (VStr "app.js") (VStr "app.min.js"))
              "app.js" "ENOENT: no such file"
              eq_refl eq_refl eq_refl eq_refl [] 2
              (le_S 1 1 (le_n 1)))
    as (H1 & _ & H3).
  split; [exact H1 | exact (H3 eq_refl (le_n 2))].
Defined.

(* ------------------------------------------------------------------ *)
(** ** A settled promise stays as it is *)

Lemma stable_refl s : stable s s.
Proof. split; auto. Qed.

Lemma stable_trans s1 s2 s3 : stable s1 s2 -> stable s2 s3 -> stable s1 s3.
Proof.
  intros [L1 H1] [L2 H2]. split; [lia | ].
  intros p o Hp Hs. apply H2; [lia | now apply H1].
Qed.

Lemma stable_same s s' :
  next s' = next s -> promises s' = promises s -> stable s s'.
Proof.
  intros Hn Hp. split; [lia | ].
  intros p o _. unfold status_of. now rewrite Hp.
Qed.

Lemma stable_settle q o s : stable s (settle q o s).
Proof.
  unfold settle. destruct (status (promises s q)) eqn:E.
  - apply stable_refl.
  - split; [reflexivity | ].
    intros p o' _. unfold status_of, upd. cbn.
    destruct (Nat.eqb_spec p q) as [-> | _]; [congruence | auto].
Qed.

Lemma stable_subscribe q rx s : stable s (subscribe q rx s).
Proof.
  unfold subscribe. destruct (status (promises s q)) eqn:E.
  - now apply stable_same.
  - split; [reflexivity | ].
    intros p o' _. unfold status_of, upd. cbn.
    destruct (Nat.eqb_spec p q) as [-> | _]; [congruence | auto].
Qed.

Lemma stable_alloc pr s : stable s (alloc pr s).
Proof.
  split; [cbn; lia | ].
  intros p o Hp. unfold status_of, alloc, upd. cbn.
  destruct (Nat.eqb_spec p (next s)); [lia | auto].
Qed.

Lemma stable_join r ps s : stable s (join r ps s).
Proof.
  unfold join. destruct ps as [|p ps'].
  - apply stable_settle.
  - apply stable_trans with (set_remaining r (List.length (p :: ps')) s).
    + now apply stable_same.
    + generalize (set_remaining r (List.length (p :: ps')) s).
      generalize (p :: ps'). intros l.
      induction l as [|x l IH]; intros s0; cbn [fold_left].
      * apply stable_refl.
      * eapply stable_trans; [apply stable_subscribe | apply IH].
Qed.

Lemma stable_finish c s : stable s (finish c s).
Proof. destruct c; cbn; auto using stable_refl, stable_settle. Qed.

Lemma stable_raise c e s : stable s (raise c e s).
Proof.
  destruct c; cbn; auto using stable_settle. now apply stable_same.
Qed.

Lemma stable_run j : forall c s, stable s (run c j s).
Proof.
  induction j as [ | e | ev k IHk | ex IHex k IHk | p v k IHk | p e k IHk
                 | body IHb k IHk | p k _ | p f _ k IHk | ps k IHk
                 | cb _ k IHk | ready o k IHk ];
    intros c s; cbn [run];
    auto using stable_finish, stable_raise, stable_subscribe.
  - eapply stable_trans; [ | apply IHk]. now apply stable_same.
  - eapply stable_trans; [ | apply IHk].
    eapply stable_trans; [apply stable_alloc | apply IHex].
  - eapply stable_trans; [apply stable_settle | apply IHk].
  - eapply stable_trans; [apply stable_settle | apply IHk].
  - eapply stable_trans; [ | apply IHk].
    eapply stable_trans; [apply stable_alloc | apply IHb].
  - eapply stable_trans; [ | apply IHk].
    eapply stable_trans; [apply stable_alloc | apply stable_subscribe].
  - eapply stable_trans; [ | apply IHk].
    eapply stable_trans; [apply stable_alloc | apply stable_join].
  - eapply stable_trans; [ | apply IHk]. now apply stable_same.
  - destruct ready.
    + eapply stable_trans; [apply stable_alloc | apply IHk].
    + eapply stable_trans; [ | apply IHk].
      eapply stable_trans; [apply stable_alloc | now apply stable_same].
Qed.

Lemma stable_step_task t s : stable s (step_task t s).
Proof.
  destruct t as [c j | r [v | e] | p o]; cbn [step_task];
    auto using stable_run, stable_settle.
  destruct (remaining s r) as [|[|n]].
  - eapply stable_trans; [ | apply stable_settle]. now apply stable_same.
  - eapply stable_trans; [ | apply stable_settle]. now apply stable_same.
  - now apply stable_same.
Qed.

Lemma stable_turn s s' : turn s = Some s' -> stable s s'.
Proof.
  unfold turn. destruct (micro s) as [|t ts].
  - destruct (extract _ _) as [[t ts]|]; [ | discriminate].
    intros [= <-]. eapply stable_trans; [ | apply stable_step_task].
    now apply stable_same.
  - intros [= <-]. eapply stable_trans; [ | apply stable_step_task].
    now apply stable_same.
Qed.

Lemma stable_loop n : forall s, stable s (loop n s).
Proof.
  induction n as [|n IH]; intros s; cbn [loop].
  - apply stable_refl.
  - destruct (turn s) as [s'|] eqn:E.
    + eapply stable_trans; [apply (stable_turn _ _ E) | apply IH].
    + apply stable_refl.
Qed.

(** First settlement wins: what the returned promise is after the
    synchronous part of a call, it is in every later state. *)
Lemma settled_for_good prog choices p o :
  let s0 := run CTop prog (init choices) in
  p < next s0 -> status_of s0 p = Some o ->
  forall fuel, status_of (exec prog choices fuel) p = Some o.
Proof.
  intros s0 Hp Hs fuel. unfold exec.
  now apply (stable_loop fuel s0).
Qed.

(* ------------------------------------------------------------------ *)
(** ** Validation of the required fields *)

Lemma exec_trace_prefix prog choices fuel :
  exists rest,
    trace (exec prog choices fuel)
    = trace (run CTop prog (init choices)) ++ rest.
Proof. apply extends_loop. Qed.

Lemma not_never_in bad ev tr : In ev tr -> bad ev = true -> ~ never bad tr.
Proof. intros Hin Hb Hn. rewrite (Hn ev Hin) in Hb. discriminate. Qed.

(** The stages that validate with [throw] stop there: the call fails with
    the error that names the first missing field, and the trace of the whole
    run holds nothing else. *)
Lemma compileNunjucks_missing_field (w : world) (a : config) :
  inputPath a = VUndefined \/ outputPath a = VUndefined
  \/ templates a = VUndefined ->
  exists field,
    In field ["inputPath"; "outputPath"; "templates"]
    /\ forall choices fuel,
         trace (exec (compileNunjucks w a) choices fuel)
         = [Settled 0 (Rejected (VError ("No " ++ field
                         ++ " provided to compileNunjucks")%string))].
Proof.
  intros H.
  destruct (truthy (inputPath a)) eqn:Hi;
    [destruct (truthy (outputPath a)) eqn:Ho;
       [destruct (truthy (templates a)) eqn:Ht | ] | ].
  - exfalso. destruct H as [H | [H | H]]; rewrite H in *; discriminate.
  - exists "templates". split; [cbn; auto | ]. intros choices fuel.
    unfold exec, compileNunjucks, throw_if. rewrite Hi, Ho, Ht.
    now rewrite loop_idle.
  - exists "outputPath". split; [cbn; auto | ]. intros choices fuel.
    unfold exec, compileNunjucks, throw_if. rewrite Hi, Ho.
    now rewrite loop_idle.
  - exists "inputPath". split; [cbn; auto | ]. intros choices fuel.
    unfold exec, compileNunjucks, throw_if. rewrite Hi.
    now rewrite loop_idle.
Qed.

Lemma compileSassAndPurgeCss_missing_field (w : world) (a : config) :
  srcSassPath a = VUndefined \/ destCssPath a = VUndefined ->
  exists field,
    In field ["srcSassPath"; "destCssPath"]
    /\ forall choices fuel,
         trace (exec (compileSassAndPurgeCss w a) choices fuel)
         = [Settled 0 (Rejected (VError ("No " ++ field
                         ++ " provided to compileSassAndPurgeCss")%string))].
Proof.
  intros H.
  destruct (truthy (srcSassPath a)) eqn:Hi;
    [destruct (truthy (destCssPath a)) eqn:Ho | ].
  - exfalso. destruct H as [H | H]; rewrite H in *; discriminate.
  - exists "destCssPath". split; [cbn; auto | ]. intros choices fuel.
    unfold exec, compileSassAndPurgeCss, throw_if. rewrite Hi, Ho.
    now rewrite loop_idle.
  - exists "srcSassPath". split; [cbn; auto | ]. intros choices fuel.
    unfold exec, compileSassAndPurgeCss, throw_if. rewrite Hi.
    now rewrite loop_idle.
Qed.

Lemma babelAndMinify_missing_field (w : world) (a : config) :
  inputPath a = VUndefined \/ outputPath a = VUndefined ->
  exists field,
    In field ["inputPath"; "outputPath"]
    /\ forall choices fuel,
         trace (exec (babelAndMinify w a) choices fuel)
         = [Thrown (VError ("No " ++ field
                            ++ " provided to babelAndMinify")%string)].
Proof.
  intros H.
  destruct (truthy (inputPath a)) eqn:Hi;
    [destruct (truthy (outputPath a)) eqn:Ho | ].
  - exfalso. destruct H as [H | H]; rewrite H in *; discriminate.
  - exists "outputPath". split; [cbn; auto | ]. intros choices fuel.
    unfold exec, babelAndMinify, throw_if. rewrite Hi, Ho.
    now rewrite loop_idle.
  - exists "inputPath". split; [cbn; auto | ]. intros choices fuel.
    unfold exec, babelAndMinify, throw_if. rewrite Hi.
    now rewrite loop_idle.
Qed.

(** C1 (the code departs from it): [uglify] and [beautifyHtml] validate with
    [reject], which does not leave the executor.  Called with an input path
    and no output path, each rejects the returned promise with the error
    that names the output path and then goes on to log and to call
    [fs.readFile] on the input path: the run does perform file I/O. *)
Theorem uglify_beautifyHtml_missing_outputPath_still_read
  (w : world) (a : config) (i : string) :
  inputPath a = VStr i ->
  truthy (inputPath a) = true ->
  outputPath a = VUndefined ->
  forall choices fuel,
    let su := exec (uglify w a) choices fuel in
    let sb := exec (beautifyHtml w a) choices fuel in
    (status_of su 0
       = Some (Rejected (VError "No output path provided to uglify"))
     /\ (exists rest,
           trace su
           = [Settled 0
                (Rejected (VError "No output path provided to uglify"));
              ConsoleLog [VStr ("Minifying " ++ i)%string];
              FsReadFile (VStr i)] ++ rest)
     /\ ~ never is_file_io (trace su))
    /\
    (status_of sb 0
       = Some (Rejected (VError "No output path provided to beautifyHtml"))
     /\ (exists rest,
           trace sb
           = [Settled 0
                (Rejected (VError "No output path provided to beautifyHtml"));
              ConsoleLog [VStr ("Beautifying HTML for " ++ i)%string];
              FsReadFile (VStr i)] ++ rest)
     /\ ~ never is_file_io (trace sb)).
Proof.
  intros Hp Hi Ho choices fuel. cbv zeta.
  assert (U : trace (run CTop (uglify w a) (init choices))
              = [Settled 0
                   (Rejected (VError "No output path provided to uglify"));
                 ConsoleLog [VStr ("Minifying " ++ i)%string];
                 FsReadFile (VStr i)]
              /\ status_of (run CTop (uglify w a) (init choices)) 0
                 = Some (Rejected (VError "No output path provided to uglify"))
              /\ 0 < next (run CTop (uglify w a) (init choices))).
  { unfold uglify, when, readFile. rewrite Hi, Ho, Hp.
    destruct (fs_readFile w (VStr i)); cbn; auto. }
  assert (B : trace (run CTop (beautifyHtml w a) (init choices))
              = [Settled 0
                   (Rejected
                      (VError "No output path provided to beautifyHtml"));
                 ConsoleLog [VStr ("Beautifying HTML for " ++ i)%string];
                 FsReadFile (VStr i)]
              /\ status_of (run CTop (beautifyHtml w a) (init choices)) 0
                 = Some (Rejected
                           (VError "No output path provided to beautifyHtml"))
              /\ 0 < next (run CTop (beautifyHtml w a) (init choices))).
  { unfold beautifyHtml, when, readFile. rewrite Hi, Ho, Hp.
    destruct (fs_readFile w (VStr i)); cbn; auto. }
  destruct U as (Ut & Us & Un). destruct B as (Bt & Bs & Bn).
  split.
  - destruct (exec_trace_prefix (uglify w a) choices fuel) as [rest E].
    rewrite Ut in E. repeat split.
    + now apply settled_for_good.
    + now exists rest.
    + apply not_never_in with (ev := FsReadFile (VStr i)); [ | reflexivity].
      rewrite E. cbn. auto.
  - destruct (exec_trace_prefix (beautifyHtml w a) choices fuel) as [rest E].
    rewrite Bt in E. repeat split.
    + now apply settled_for_good.
    + now exists rest.
    + apply not_never_in with (ev := FsReadFile (VStr i)); [ | reflexivity].
      rewrite E. cbn. auto.
Qed.

Lemma uglify_beautifyHtml_missing_outputPath_still_read_witness :
  trace (exec (uglify demo_world (with_paths (VStr "app.js") VUndefined))
              [] 2)
  = [Settled 0 (Rejected (VError "No output path provided to uglify"));
     ConsoleLog [VStr "Minifying app.js"];
     FsReadFile (VStr "app.js")]
    ++ [FsReadFileDone (VStr "app.js") (inr (VStr "var a = 1;"));
        UglifyMinify "app.js" (VStr "var a = 1;");
        FsWriteFile VUndefined (VStr "var a=1;");
        FsWriteFileDone VUndefined None]
  /\ ~ never is_file_io
         (trace (exec (uglify demo_world
                         (with_paths (VStr "app.js") VUndefined)) [] 2)).
Proof.
  destruct (uglify_beautifyHtml_missing_outputPath_still_read
              demo_world (with_paths (VStr "app.js") VUndefined) "app.js"
              eq_refl eq_refl eq_refl [] 2) as ((_ & _ & H) & _).
  split; [reflexivity | exact H].
Defined.

(* ------------------------------------------------------------------ *)
(** ** babelAndMinify: a transform error *)

Lemma pending_for_good n s p :
  idle (loop n s) = true -> status_of (loop n s) p = None -> p < next s ->
  forall fuel, status_of (loop fuel s) p = None.
Proof.
  intros Hidle Hnone Hp fuel.
  destruct (Nat.le_gt_cases n fuel) as [L | L].
  - now rewrite (loop_from n fuel s Hidle L).
  - destruct (status_of (loop fuel s) p) as [o|] eqn:E; [ | reflexivity].
    replace n with (fuel + (n - fuel)) in Hnone by lia.
    rewrite loop_add in Hnone.
    destruct (stable_loop (n - fuel) (loop fuel s)) as [_ H].
    rewrite (H p o) in Hnone; [discriminate | | exact E].
    destruct (stable_loop fuel s). lia.
Qed.

(** C3 (the code departs from it): the executor of [babelAndMinify] takes
    [resolve] only and chains [then] on the transformer with a fulfilment
    callback only.  When the transform fails with [e] the rejection lands on
    the promise that [then] made; the returned promise (promise 0) is never
    settled, in no run and at no time, and the run ends with it pending. *)
Theorem babelAndMinify_transform_error_never_settles
  (w : world) (a : config) (e : value) :
  truthy (inputPath a) = true ->
  truthy (outputPath a) = true ->
  snd (babel_transformFile w (inputPath a) (babel_presets (minify a)))
    = inl e ->
  forall choices fuel,
    let s := exec (babelAndMinify w a) choices fuel in
    status_of s 0 = None
    /\ never (settles 0) (trace s)
    /\ (2 <= fuel ->
        idle s = true /\ In (Settled 2 (Rejected e)) (trace s)).
Proof.
  intros Hi Ho He choices fuel. cbv zeta.
  unfold exec, babelAndMinify, throw_if. rewrite Hi, Ho. cbn [negb].
  destruct (babel_transformFile w (inputPath a) (babel_presets (minify a)))
    as [ready r].
  cbn [snd] in He. subst r.
  repeat split.
  - revert fuel. apply pending_for_good with (n := 2);
      destruct ready; cbn; auto.
  - revert fuel. apply never_always with (n := 2);
      destruct ready; cbn; auto; apply never_forallb; reflexivity.
  - rewrite (loop_from 2 fuel) by (destruct ready; cbn; auto).
    destruct ready; reflexivity.
  - rewrite (loop_from 2 fuel) by (destruct ready; cbn; auto).
    destruct ready; cbn; auto.
Qed.

Lemma babelAndMinify_transform_error_never_settles_witness :
  let s := exec (babelAndMinify transform_fails
                   (with_minify (VStr "src.js") (VStr "out.js") VUndefined))
                [] 5 in
  status_of s 0 = None /\ idle s = true.
Proof.
  destruct (babelAndMinify_transform_error_never_settles
              transform_fails
              (with_minify (VStr "src.js") (VStr "out.js") VUndefined)
              (VError "SyntaxError: unexpected token")
              eq_refl eq_refl eq_refl [] 5) as (H1 & _ & H3).
  split; [exact H1 | ].
  exact (proj1 (H3 (le_S 2 4 (le_S 2 3 (le_S 2 2 (le_n 2)))))).
Defined.

(* ------------------------------------------------------------------ *)
(** ** compileSassAndPurgeCss with the source map switched off *)

Lemma append_longer (x y : string) :
  String.length (x ++ y)%string = String.length x + String.length y.
Proof. induction x as [|c x IH]; cbn; [reflexivity | now rewrite IH]. Qed.

Lemma dest_is_not_map_path (dest : value) :
  same_path dest (map_path dest) = false.
Proof.
  destruct dest; try reflexivity. cbn.
  apply String.eqb_neq. intros E.
  apply (f_equal String.length) in E. rewrite append_longer in E.
  cbn in E. lia.
Qed.

(** C4 (the code departs from it): with [sassSourceMap: false] the stage
    compiles and starts the write of the compiled CSS, then evaluates
    [new Promise().resolve()], which throws; the returned promise is rejected
    with that TypeError and the purge is never started.  No '.map' file is
    written. *)
Theorem compileSassAndPurgeCss_without_source_map_rejects
  (w : world) (a : config) (res : sass_result) :
  truthy (srcSassPath a) = true ->
  truthy (destCssPath a) = true ->
  sassSourceMap a = VBool false ->
  sass_renderSync w (srcSassPath a) (destCssPath a) (VBool false) = inr res ->
  forall choices fuel,
    let s := exec (compileSassAndPurgeCss w a) choices fuel in
    status_of s 0 = Some (Rejected no_resolver)
    /\ In (SassRenderSync (srcSassPath a) (destCssPath a) (VBool false))
          (trace s)
    /\ In (FsWriteFile (destCssPath a) (sass_css res)) (trace s)
    /\ never is_purge (trace s)
    /\ never (writes_to (map_path (destCssPath a))) (trace s).
Proof.
  intros Hs Hd Hm Hr choices fuel. cbv zeta.
  assert (S0 : let s0 := run CTop (compileSassAndPurgeCss w a) (init choices)
               in status_of s0 0 = Some (Rejected no_resolver)
                  /\ 0 < next s0
                  /\ In (SassRenderSync (srcSassPath a) (destCssPath a)
                                        (VBool false)) (trace s0)
                  /\ In (FsWriteFile (destCssPath a) (sass_css res))
                        (trace s0)).
  { unfold compileSassAndPurgeCss, throw_if, write, writeFile.
    rewrite Hs, Hd, Hm. cbn [negb default_param strict_eq_true].
    rewrite Hr.
    destruct (fs_writeFile w (destCssPath a) (sass_css res));
      cbn; auto 10. }
  destruct S0 as (St & Sn & Sr & Sw).
  pose proof (dest_is_not_map_path (destCssPath a)) as Hneq.
  repeat split.
  - now apply settled_for_good.
  - unfold exec. now apply in_trace_loop.
  - unfold exec. now apply in_trace_loop.
  - revert fuel. unfold exec.
    unfold compileSassAndPurgeCss, throw_if, write, writeFile.
    rewrite Hs, Hd, Hm. cbn [negb default_param strict_eq_true].
    rewrite Hr.
    destruct (fs_writeFile w (destCssPath a) (sass_css res)) as [e | r].
    + finished 0.
    + destruct r as [msg | ];
        apply never_always with (n := 1);
        cbn; auto; apply never_forallb; reflexivity.
  - revert fuel. unfold exec.
    unfold compileSassAndPurgeCss, throw_if, write, writeFile.
    rewrite Hs, Hd, Hm. cbn [negb default_param strict_eq_true].
    rewrite Hr.
    destruct (fs_writeFile w (destCssPath a) (sass_css res)) as [e | r].
    + apply never_always with (n := 0); [reflexivity | ].
      cbn. never_list.
    + destruct r as [msg | ];
        apply never_always with (n := 1);
        cbn; auto; never_list.
Qed.

Lemma compileSassAndPurgeCss_without_source_map_rejects_witness :
  let s := exec (compileSassAndPurgeCss demo_world
                   (style_sheet (VBool false))) [] 6 in
  status_of s 0 = Some (Rejected no_resolver) /\ never is_purge (trace s).
Proof.
  destruct (compileSassAndPurgeCss_without_source_map_rejects
              demo_world (style_sheet (VBool false))
              (mkSass (VStr ".used{color:red}") (VStr "{}"))
              eq_refl eq_refl eq_refl eq_refl [] 6) as (H1 & _ & _ & H4 & _).
  split; [exact H1 | exact H4].
Defined.

(* ------------------------------------------------------------------ *)
(** ** compileSassAndPurgeCss: the writes come before the purge *)

Lemma precedes_nil a late : precedes a late [].
Proof. apply never_precedes, never_nil. Qed.

(** [precedes a late] of an explicit list of events. *)
Ltac precedes_list :=
  repeat (apply precedes_cons;
          [reflexivity | first [left; reflexivity | right]]);
  try apply precedes_nil.

Ltac sass_unfold :=
  unfold exec, compileSassAndPurgeCss, throw_if, write, writeFile, when.

(** C5: in every run of the stage, whatever the collaborators answer and in
    whatever order the two writes complete, a call of the purger comes after
    the successful completion of the write of the compiled CSS and after the
    successful completion of the write of its source map. *)
Theorem compileSassAndPurgeCss_writes_before_purge
  (w : world) (a : config) (choices : list nat) (fuel : nat) :
  let tr := trace (exec (compileSassAndPurgeCss w a) choices fuel) in
  precedes (FsWriteFileDone (destCssPath a) None) is_purge tr
  /\ precedes (FsWriteFileDone (map_path (destCssPath a)) None) is_purge tr.
Proof.
  cbv zeta. revert fuel. unfold map_path.
  enough (H : forall ev,
             ev = FsWriteFileDone (destCssPath a) None
             \/ ev = FsWriteFileDone
                       (VStr (to_str (destCssPath a) ++ ".map")%string) None ->
             forall fuel,
               precedes ev is_purge
                 (trace (exec (compileSassAndPurgeCss w a) choices fuel))).
  { intros fuel. split; apply H; auto. }
  intros ev Hev. sass_unfold.
  destruct (truthy (srcSassPath a));
    [ | apply precedes_always with (n := 0);
        [cbn; precedes_list | right; reflexivity] ].
  destruct (truthy (destCssPath a));
    [ | apply precedes_always with (n := 0);
        [cbn; precedes_list | right; reflexivity] ].
  cbn [negb].
  destruct (sass_renderSync w (srcSassPath a) (destCssPath a)
              (default_param (VBool true) (sassSourceMap a))) as [e | res];
    [ apply precedes_always with (n := 0);
        [cbn; precedes_list | right; reflexivity] | ].
  destruct (purge w (purgeCssContent a) (cssFilesToPurge a)
              (default_param (VBool true) (purgeCssSourceMap a)))
    as [ready answer].
  destruct ready;
  destruct (strict_eq_true (default_param (VBool true) (sassSourceMap a))).
  1, 3:
    destruct (fs_writeFile w (destCssPath a) (sass_css res))
      as [e1 | [m1 | ]];
    destruct (fs_writeFile w
                (VStr (to_str (destCssPath a) ++ ".map")%string)
                (sass_map res)) as [e2 | [m2 | ]];
    destruct choices as [|[|c] choices];
    try (apply precedes_always with (n := 8);
         [cbn; precedes_list | right; reflexivity]);
    (apply precedes_always with (n := 5);
      [ destruct Hev as [-> | ->]; cbn; precedes_list
      | left; destruct Hev as [-> | ->]; cbn; auto 10 ]).
  all:
    destruct (fs_writeFile w (destCssPath a) (sass_css res))
      as [e1 | [m1 | ]];
    (apply precedes_always with (n := 2);
     [cbn; precedes_list | right; reflexivity]).
Qed.

(* ------------------------------------------------------------------ *)
(** ** What the synchronous part of a job can do *)

Section Quiet.

Variable bad : event -> bool.
Hypothesis settled_ok : forall p o, bad (Settled p o) = false.
Hypothesis thrown_ok : forall e, bad (Thrown e) = false.

Lemma quietly_refl s : quietly bad s s.
Proof. exists []. split; [now rewrite app_nil_r | apply never_nil]. Qed.

Lemma quietly_trans s1 s2 s3 :
  quietly bad s1 s2 -> quietly bad s2 s3 -> quietly bad s1 s3.
Proof.
  intros (m1 & E1 & N1) (m2 & E2 & N2). exists (m1 ++ m2). split.
  - now rewrite E2, E1, app_assoc.
  - now apply never_app.
Qed.

Lemma quietly_same s s' : trace s' = trace s -> quietly bad s s'.
Proof.
  intros E. exists []. split; [now rewrite app_nil_r | apply never_nil].
Qed.

Lemma quietly_emit ev s : bad ev = false -> quietly bad s (emit ev s).
Proof.
  intros H. exists [ev]. split; [reflexivity | ].
  now apply never_cons; [ | apply never_nil].
Qed.

Lemma quietly_settle p o s : quietly bad s (settle p o s).
Proof.
  unfold settle. destruct (status (promises s p)).
  - apply quietly_refl.
  - exists [Settled p o]. split; [reflexivity | ].
    apply never_cons; [apply settled_ok | apply never_nil].
Qed.

Lemma quietly_subscribe p rx s : quietly bad s (subscribe p rx s).
Proof.
  unfold subscribe.
  destruct (status (promises s p)); now apply quietly_same.
Qed.

Lemma quietly_join r ps s : quietly bad s (join r ps s).
Proof.
  unfold join. destruct ps as [|p ps'].
  - apply quietly_settle.
  - apply quietly_trans with (set_remaining r (List.length (p :: ps')) s).
    + now apply quietly_same.
    + generalize (set_remaining r (List.length (p :: ps')) s).
      generalize (p :: ps'). intros l.
      induction l as [|x l IH]; intros s0; cbn [fold_left].
      * apply quietly_refl.
      * eapply quietly_trans; [apply quietly_subscribe | apply IH].
Qed.

Lemma quietly_finish c s : quietly bad s (finish c s).
Proof. destruct c; cbn; auto using quietly_refl, quietly_settle. Qed.

Lemma quietly_raise c e s : quietly bad s (raise c e s).
Proof.
  destruct c; cbn; auto using quietly_settle.
  apply quietly_emit, thrown_ok.
Qed.

Lemma hushed_run j :
  forall c s, hushed bad j -> quietly bad s (run c j s).
Proof.
  induction j as [ | e | ev k IHk | ex IHex k IHk | p v k IHk | p e k IHk
                 | body IHb k IHk | p k _ | p f _ k IHk | ps k IHk
                 | cb _ k IHk | ready o k IHk ];
    intros c s H; cbn [run]; cbn [hushed] in H;
    auto using quietly_finish, quietly_raise, quietly_subscribe.
  - destruct H as [H1 H2].
    eapply quietly_trans; [apply (quietly_emit ev), H1 | now apply IHk].
  - destruct H as [H1 H2]. eapply quietly_trans; [ | now apply IHk].
    eapply quietly_trans; [ | now apply IHex]. now apply quietly_same.
  - eapply quietly_trans; [apply quietly_settle | now apply IHk].
  - eapply quietly_trans; [apply quietly_settle | now apply IHk].
  - destruct H as [H1 H2]. eapply quietly_trans; [ | now apply IHk].
    eapply quietly_trans; [ | now apply IHb]. now apply quietly_same.
  - eapply quietly_trans; [ | now apply IHk].
    eapply quietly_trans; [ | apply quietly_subscribe].
    now apply quietly_same.
  - eapply quietly_trans; [ | now apply IHk].
    eapply quietly_trans; [ | apply quietly_join]. now apply quietly_same.
  - eapply quietly_trans; [ | now apply IHk]. now apply quietly_same.
  - destruct ready; (eapply quietly_trans; [ | now apply IHk]);
      now apply quietly_same.
Qed.

End Quiet.

Lemma keeps_refl p s : keeps p s s.
Proof. split; auto. Qed.

Lemma keeps_trans p s1 s2 s3 : keeps p s1 s2 -> keeps p s2 s3 -> keeps p s1 s3.
Proof. intros [L1 H1] [L2 H2]. split; [lia | congruence]. Qed.

Lemma keeps_same p s s' :
  next s' = next s -> promises s' = promises s -> keeps p s s'.
Proof.
  intros Hn Hp. split; [lia | ]. unfold status_of. now rewrite Hp.
Qed.

Lemma keeps_settle p q o s : q <> p -> keeps p s (settle q o s).
Proof.
  intros Hq. unfold settle. destruct (status (promises s q)).
  - apply keeps_refl.
  - split; [reflexivity | ]. unfold status_of, upd. cbn.
    destruct (Nat.eqb_spec p q); [congruence | reflexivity].
Qed.

Lemma keeps_subscribe p q rx s : keeps p s (subscribe q rx s).
Proof.
  unfold subscribe. destruct (status (promises s q)) eqn:E.
  - now apply keeps_same.
  - split; [reflexivity | ]. unfold status_of, upd. cbn.
    destruct (Nat.eqb_spec p q) as [-> | _]; [now rewrite E | reflexivity].
Qed.

Lemma keeps_alloc p pr s : p < next s -> keeps p s (alloc pr s).
Proof.
  intros Hp. split; [cbn; lia | ]. unfold status_of, alloc, upd. cbn.
  destruct (Nat.eqb_spec p (next s)); [lia | reflexivity].
Qed.

Lemma keeps_join p r ps s : r <> p -> keeps p s (join r ps s).
Proof.
  intros Hr. unfold join. destruct ps as [|x ps'].
  - now apply keeps_settle.
  - apply keeps_trans with (set_remaining r (List.length (x :: ps')) s).
    + now apply keeps_same.
    + generalize (set_remaining r (List.length (x :: ps')) s).
      generalize (x :: ps'). intros l.
      induction l as [|y l IH]; intros s0; cbn [fold_left].
      * apply keeps_refl.
      * eapply keeps_trans; [apply keeps_subscribe | apply IH].
Qed.

Lemma spares_run p j :
  forall c s,
    spares p j -> p < next s -> ctx_pid c <> Some p ->
    keeps p s (run c j s).
Proof.
  induction j as [ | e | ev k IHk | ex IHex k IHk | q v k IHk | q e k IHk
                 | body IHb k IHk | q k _ | q f _ k IHk | ps k IHk
                 | cb _ k IHk | ready o k IHk ];
    intros c s H Hp Hc; cbn [run]; cbn [spares] in H.
  - destruct c; cbn; try apply keeps_refl.
    apply keeps_settle. cbn in Hc. congruence.
  - destruct c; cbn.
    + now apply keeps_same.
    + apply keeps_settle. cbn in Hc. congruence.
    + apply keeps_settle. cbn in Hc. congruence.
  - eapply keeps_trans; [ | now apply IHk]. now apply keeps_same.
  - assert (Hn : next s <> p) by lia. destruct (H _ Hn) as [H1 H2].
    assert (K1 : keeps p s (run (CExecutor (next s)) (ex (next s))
                                (alloc fresh s))).
    { eapply keeps_trans; [apply keeps_alloc, Hp | ].
      apply IHex; [exact H1 | cbn; lia | cbn; congruence]. }
    eapply keeps_trans; [exact K1 | ].
    apply IHk; [exact H2 | destruct K1; lia | exact Hc].
  - destruct H as [H1 H2].
    eapply keeps_trans; [exact (keeps_settle p q (Fulfilled v) s H1) | ].
    apply IHk; [exact H2 | | exact Hc].
    destruct (keeps_settle p q (Fulfilled v) s H1). lia.
  - destruct H as [H1 H2].
    eapply keeps_trans; [exact (keeps_settle p q (Rejected e) s H1) | ].
    apply IHk; [exact H2 | | exact Hc].
    destruct (keeps_settle p q (Rejected e) s H1). lia.
  - assert (Hn : next s <> p) by lia. destruct (H _ Hn) as [H1 H2].
    assert (K1 : keeps p s (run (CReturn (next s)) (body (next s))
                                (alloc fresh s))).
    { eapply keeps_trans; [apply keeps_alloc, Hp | ].
      apply IHb; [exact H1 | cbn; lia | cbn; congruence]. }
    eapply keeps_trans; [exact K1 | ].
    apply IHk; [exact H2 | destruct K1; lia | exact Hc].
  - apply keeps_subscribe.
  - assert (Hn : next s <> p) by lia.
    assert (K1 : keeps p s (subscribe q (RCont (CReturn (next s)) f)
                                      (alloc fresh s))).
    { eapply keeps_trans; [apply keeps_alloc, Hp | apply keeps_subscribe]. }
    eapply keeps_trans; [exact K1 | ].
    apply IHk; [now apply H | destruct K1; lia | exact Hc].
  - assert (Hn : next s <> p) by lia.
    assert (K1 : keeps p s (join (next s) ps (alloc fresh s))).
    { eapply keeps_trans; [apply keeps_alloc, Hp | apply keeps_join, Hn]. }
    eapply keeps_trans; [exact K1 | ].
    apply IHk; [now apply H | destruct K1; lia | exact Hc].
  - eapply keeps_trans; [ | now apply IHk]. now apply keeps_same.
  - assert (Hn : next s <> p) by lia. destruct ready.
    + eapply keeps_trans; [apply keeps_alloc, Hp | ].
      apply IHk; [now apply H | cbn; lia | exact Hc].
    + assert (K1 : keeps p s (owe (TSettle (next s) o) (alloc fresh s))).
      { eapply keeps_trans; [apply keeps_alloc, Hp | now apply keeps_same]. }
      eapply keeps_trans; [exact K1 | ].
      apply IHk; [now apply H | destruct K1; lia | exact Hc].
Qed.

(* ------------------------------------------------------------------ *)
(** ** compileSassAndPurgeCss: step 4 is not awaited *)

Lemma write_sync_not_settled p o : is_write_sync (Settled p o) = false.
Proof. reflexivity. Qed.

Lemma write_sync_not_thrown e : is_write_sync (Thrown e) = false.
Proof. reflexivity. Qed.

Lemma prefix_and_save_hushed w r p :
  hushed is_write_sync (prefix_and_save w r p).
Proof.
  unfold prefix_and_save. cbn. split; [ | auto].
  intros q. destruct (get_prop r "css"); cbn; auto.
Qed.

Lemma prefix_and_save_spares w r p : spares 0 (prefix_and_save w r p).
Proof.
  unfold prefix_and_save. cbn. intros q Hq. split; [ | exact I].
  destruct (get_prop r "css"); cbn; auto.
Qed.

(** The loop of step 4 starts one prefixing per purge result and leaves
    every overwrite to a later turn. *)
Lemma for_each_prefix_and_save w items :
  forall c k s,
    0 < next s ->
    exists s1,
      run c (for_each items
               (fun r k' => Async (prefix_and_save w r) (fun _ => k')) k) s
      = run c k s1
      /\ quietly is_write_sync s s1
      /\ keeps 0 s s1.
Proof.
  induction items as [|x xs IH]; intros c k s Hs; cbn [for_each].
  - exists s. split; [reflexivity | ].
    split; [apply quietly_refl | apply keeps_refl].
  - cbn [run].
    set (s_mid := run (CReturn (next s)) (prefix_and_save w x (next s))
                      (alloc fresh s)).
    assert (Q : quietly is_write_sync s s_mid).
    { eapply quietly_trans; [ | apply hushed_run].
      - now apply quietly_same.
      - exact write_sync_not_settled.
      - exact write_sync_not_thrown.
      - apply prefix_and_save_hushed. }
    assert (K : keeps 0 s s_mid).
    { eapply keeps_trans; [apply keeps_alloc, Hs | ].
      apply spares_run.
      - apply prefix_and_save_spares.
      - cbn. lia.
      - cbn. intros [= E]. lia. }
    destruct (IH c k s_mid) as (s1 & E & Q1 & K1).
    { destruct K. lia. }
    exists s1. split; [exact E | ].
    split; [eapply quietly_trans | eapply keeps_trans]; eassumption.
Qed.

(** Once the purge results are in, the job that runs step 4 fulfils the
    returned promise, and up to that point no overwrite has been done. *)
Lemma step4_resolves w (rs : list purged) s :
  status_of s 0 = None -> 0 < next s ->
  let s' := run (CReturn 0) (step4 w (VArr (map purged_value rs))) s in
  status_of s' 0 = Some (Fulfilled VUndefined)
  /\ exists more,
       trace s' = trace s ++ more ++ [Settled 0 (Fulfilled VUndefined)]
       /\ never is_write_sync more.
Proof.
  intros Hst Hn. cbv zeta. unfold step4.
  destruct (for_each_prefix_and_save w (map purged_value rs)
              (CReturn 0) Done s Hn) as (s1 & -> & (more & E & Q) & (_ & K)).
  rewrite Hst in K. cbn [run finish]. unfold settle.
  unfold status_of in K. rewrite K. split.
  - reflexivity.
  - exists more. cbn. split; [ | exact Q]. now rewrite E, app_assoc.
Qed.

Arguments step4 : simpl never.

Ltac sass_stops turns :=
  left; exists turns; cbn;
  split; [reflexivity
         | split; [never_list
                  | first [left; never_list | right; eexists; reflexivity]]].

Ltac sass_goes turns :=
  right; exists turns; eexists; eexists;
  split; [reflexivity
         | split; [cbn -[step4]; reflexivity
                  | split; [reflexivity
                           | split; [cbn; lia | cbn; never_list]]]].

(** Every run of the stage either ends without reaching step 4 (and then
    without any overwrite, the purger having not been called or having
    failed), or comes to the job that runs step 4 with the returned promise
    still pending and no overwrite done. *)
Lemma compileSassAndPurgeCss_cases (w : world) (a : config) choices :
  let prog := compileSassAndPurgeCss w a in
  (exists n,
     idle (exec prog choices n) = true
     /\ never is_write_sync (trace (exec prog choices n))
     /\ (never is_purge (trace (exec prog choices n))
         \/ exists e, purge_answer w a = inl e))
  \/ (exists n s rs,
        purge_answer w a = inr rs
        /\ exec prog choices n
           = run (CReturn 0) (step4 w (VArr (map purged_value rs))) s
        /\ status_of s 0 = None
        /\ 0 < next s
        /\ never is_write_sync (trace s)).
Proof.
  cbv zeta. unfold purge_answer. sass_unfold.
  destruct (truthy (srcSassPath a)); [ | sass_stops 0].
  destruct (truthy (destCssPath a)); [ | sass_stops 0].
  cbn [negb].
  destruct (sass_renderSync w (srcSassPath a) (destCssPath a)
              (default_param (VBool true) (sassSourceMap a))) as [e | res];
    [sass_stops 0 | ].
  destruct (purge w (purgeCssContent a) (cssFilesToPurge a)
              (default_param (VBool true) (purgeCssSourceMap a)))
    as [ready [e | rs]];
  destruct ready;
  destruct (strict_eq_true (default_param (VBool true) (sassSourceMap a)));
  destruct (fs_writeFile w (destCssPath a) (sass_css res))
    as [e1 | [m1 | ]];
  try (sass_stops 2);
  destruct (fs_writeFile w
              (VStr (to_str (destCssPath a) ++ ".map")%string)
              (sass_map res)) as [e2 | [m2 | ]];
  destruct choices as [|[|c] choices];
  try (sass_stops 9).
  all: first [sass_goes 6 | sass_goes 7].
Qed.

(** C2: the promise returned by [compileSassAndPurgeCss] (promise 0) does
    not wait for step 4.  In every run, each overwrite of step 4 comes after
    the fulfilment of the returned promise; and every run that reaches
    step 4 (the purger was called and answered with results) passes through
    a state in which the returned promise is fulfilled and no overwrite has
    been done. *)
Theorem compileSassAndPurgeCss_resolves_before_overwrites
  (w : world) (a : config) (choices : list nat) :
  let prog := compileSassAndPurgeCss w a in
  (forall fuel,
     precedes (Settled 0 (Fulfilled VUndefined)) is_write_sync
              (trace (exec prog choices fuel)))
  /\ (forall rs,
        purge_answer w a = inr rs ->
        (exists fuel, In (purge_call a) (trace (exec prog choices fuel))) ->
        exists n,
          status_of (exec prog choices n) 0 = Some (Fulfilled VUndefined)
          /\ never is_write_sync (trace (exec prog choices n))).
Proof.
  cbv zeta.
  destruct (compileSassAndPurgeCss_cases w a choices)
    as [(n & Hidle & Hw & Hp) | (n & s & rs & Ha & E & Hst & Hn & Hw)].
  - split.
    + unfold exec in *. apply precedes_always with (n := n).
      * now apply never_precedes.
      * now right.
    + intros rs Ha [fuel Hin]. exfalso.
      destruct Hp as [Hp | [e He]]; [ | congruence].
      unfold exec in *.
      pose proof (never_always _ _ _ Hidle Hp fuel _ Hin) as C.
      discriminate C.
  - destruct (step4_resolves w rs s Hst Hn) as (Hs' & more & Et & Hq).
    rewrite <- E in Hs', Et.
    assert (Hnever : never is_write_sync
                       (trace (exec (compileSassAndPurgeCss w a) choices n))).
    { rewrite Et. apply never_app; [exact Hw | ].
      apply never_app; [exact Hq | ].
      apply never_cons; [reflexivity | apply never_nil]. }
    split.
    + unfold exec in *. apply precedes_always with (n := n).
      * now apply never_precedes.
      * left. rewrite Et. apply in_or_app. right.
        apply in_or_app. right. now left.
    + intros rs' _ _. now exists n.
Qed.

Lemma compileSassAndPurgeCss_resolves_before_overwrites_witness :
  let prog := compileSassAndPurgeCss demo_world (style_sheet VUndefined) in
  (exists n,
     status_of (exec prog [] n) 0 = Some (Fulfilled VUndefined)
     /\ never is_write_sync (trace (exec prog [] n)))
  /\ In (FsWriteFileSync (VStr "a.css") (VStr ".used{color:red}"))
        (trace (exec prog [] 12))
  /\ In (Settled 0 (Fulfilled VUndefined))
        (firstn 17 (trace (exec prog [] 12))).
Proof.
  cbv zeta.
  pose proof (compileSassAndPurgeCss_resolves_before_overwrites
                demo_world (style_sheet VUndefined) []) as H.
  cbv zeta in H. destruct H as [H1 H2].
  split; [ | split].
  - apply (H2 [mkPurged (VStr "a.css") (VStr ".used{color:red}")] eq_refl).
    exists 5. vm_compute. repeat (first [left; reflexivity | right]).
  - vm_compute. repeat (first [left; reflexivity | right]).
  - pose (tr := trace (exec (compileSassAndPurgeCss demo_world
                               (style_sheet VUndefined)) [] 12)).
    refine (H1 12 (firstn 17 tr)
               (FsWriteFileSync (VStr "a.css") (VStr ".used{color:red}"))
               (skipn 18 tr) _ eq_refl).
    vm_compute. reflexivity.
Defined.

Lemma compileSassAndPurgeCss_writes_before_purge_witness :
  let tr := trace (exec (compileSassAndPurgeCss demo_world
                           (style_sheet VUndefined)) [1] 12) in
  let dest := destCssPath (style_sheet VUndefined) in
  In (FsWriteFileDone dest None) (firstn 10 tr)
  /\ In (FsWriteFileDone (map_path dest) None) (firstn 10 tr).
Proof.
  cbv zeta.
  pose (tr := trace (exec (compileSassAndPurgeCss demo_world
                             (style_sheet VUndefined)) [1] 12)).
  pose proof (compileSassAndPurgeCss_writes_before_purge
                demo_world (style_sheet VUndefined) [1] 12) as H.
  cbv zeta in H. destruct H as [H1 H2].
  split.
  - refine (H1 (firstn 10 tr) (purge_call (style_sheet VUndefined))
               (skipn 11 tr) _ eq_refl).
    vm_compute. reflexivity.
  - refine (H2 (firstn 10 tr) (purge_call (style_sheet VUndefined))
               (skipn 11 tr) _ eq_refl).
    vm_compute. reflexivity.
Defined.

(* ------------------------------------------------------------------ *)
(** ** The stages at work *)

(** The purge is reached only with [sassSourceMap === true] (after the
    default): with any other value the stage throws before it. *)
Lemma compileSassAndPurgeCss_purge_needs_source_map
  (w : world) (a : config) (choices : list nat) :
  strict_eq_true (default_param (VBool true) (sassSourceMap a)) = false ->
  forall fuel,
    never is_purge
      (trace (exec (compileSassAndPurgeCss w a) choices fuel)).
Proof.
  intros H. sass_unfold. rewrite H.
  destruct (truthy (srcSassPath a)); [ | finished 0].
  destruct (truthy (destCssPath a)); [ | finished 0].
  cbn [negb].
  destruct (sass_renderSync w (srcSassPath a) (destCssPath a)
              (default_param (VBool true) (sassSourceMap a))) as [e | res];
    [finished 0 | ].
  destruct (fs_writeFile w (destCssPath a) (sass_css res))
    as [e1 | [m1 | ]]; finished 1.
Qed.

(** The template scenario: the page is rendered, formatted, written, and
    then the returned promise is fulfilled. *)
Example compileNunjucks_home_page :
  trace (exec (compileNunjucks demo_world home_page) [] 4)
  = [ConsoleLog [VStr "Compiling Nunjucks templates from home.njk"];
     NunjucksConfigure (VStr "templates");
     NunjucksAddGlobal "siteName" (VStr "Acme");
     NunjucksRender (VStr "home.njk") (VObj []);
     ConsoleLog [VStr "Beautifying index.html from Nunjucks"];
     Pretty (VStr "<p>Acme</p>");
     FsWriteFile (VStr "index.html") (VStr "<p>Acme</p>");
     FsWriteFileDone (VStr "index.html") None;
     Settled 0 (Fulfilled VUndefined)].
Proof. vm_compute. reflexivity. Qed.

(** The minifier on a readable file. *)
Example uglify_app :
  trace (exec (uglify demo_world (with_paths (VStr "app.js")
                                             (VStr "app.min.js"))) [] 4)
  = [ConsoleLog [VStr "Minifying app.js"];
     FsReadFile (VStr "app.js");
     FsReadFileDone (VStr "app.js") (inr (VStr "var a = 1;"));
     UglifyMinify "app.js" (VStr "var a = 1;");
     FsWriteFile (VStr "app.min.js") (VStr "var a=1;");
     FsWriteFileDone (VStr "app.min.js") None;
     Settled 0 (Fulfilled VUndefined)].
Proof. vm_compute. reflexivity. Qed.

(** The transpiler with [minify: false]: the write error is only logged, so
    here the success path. *)
Example babelAndMinify_plain :
  trace (exec (babelAndMinify demo_world
                 (with_minify (VStr "src.js") (VStr "out.js") (VBool false)))
              [] 4)
  = [BabelTransformFile (VStr "src.js") ["@babel/env"];
     Settled 1 (Fulfilled (VObj [("code", VStr "var a=1;")]));
     FsWriteFile (VStr "out.js") (VStr "var a=1;");
     Settled 2 (Fulfilled VUndefined);
     FsWriteFileDone (VStr "out.js") None;
     Settled 0 (Fulfilled VUndefined)].
Proof. vm_compute. reflexivity. Qed.

(* ------------------------------------------------------------------ *)
(** ** compileNunjucks: the other paths *)

Lemma exec_from n prog choices fuel :
  idle (exec prog choices n) = true -> n <= fuel ->
  exec prog choices fuel = exec prog choices n.
Proof. unfold exec. apply loop_from. Qed.

Lemma globals_events_never bad tpl vars keys :
  (forall t, bad (NunjucksConfigure t) = false) ->
  (forall k v, bad (NunjucksAddGlobal k v) = false) ->
  never bad (globals_events tpl vars keys).
Proof.
  intros Hc Ha. induction keys as [|key keys IH]; cbn [globals_events].
  - apply never_nil.
  - apply never_cons; [apply Hc | ]. apply never_cons; [apply Ha | exact IH].
Qed.

(** X1: the success path of [compileNunjucks].  With the required fields
    given, a render that succeeds, a formatter that returns and a write that
    succeeds, the run is: the log line, one configure and one addGlobal per
    global variable, the render, the second log line, the formatting of the
    rendered text, one write of the formatted text to the output path, its
    completion, and only then the fulfilment of the returned promise. *)
Theorem compileNunjucks_success
  (w : world) (a : config) (res html : value) :
  truthy (inputPath a) = true ->
  truthy (outputPath a) = true ->
  truthy (templates a) = true ->
  render_answer w a = inr res ->
  pretty w res = inr html ->
  fs_writeFile w (outputPath a) html = Completes None ->
  forall choices fuel, 2 <= fuel ->
    let s := exec (compileNunjucks w a) choices fuel in
    status_of s 0 = Some (Fulfilled VUndefined)
    /\ trace s
       = ConsoleLog [VStr ("Compiling Nunjucks templates from "
                           ++ to_str (inputPath a))%string]
         :: globals_events (templates a) (global_vars a)
              (map fst (global_vars a))
         ++ [NunjucksRender (inputPath a) (render_context a);
             ConsoleLog [VStr ("Beautifying " ++ to_str (outputPath a)
                               ++ " from Nunjucks")%string];
             Pretty res;
             FsWriteFile (outputPath a) html;
             FsWriteFileDone (outputPath a) None;
             Settled 0 (Fulfilled VUndefined)].
Proof.
  intros Hi Ho Ht Hr Hp Hw choices fuel Hf. cbv zeta.
  unfold exec, compileNunjucks, throw_if, writeFile.
  rewrite Hi, Ho, Ht, Hr. cbn [negb run cb_err cb_data truthy].
  rewrite Hp, Hw, run_add_globals.
  rewrite (loop_from 2 fuel); [ | reflexivity | exact Hf].
  cbn. split; [reflexivity | rewrite <- !app_assoc; reflexivity].
Qed.

Lemma compileNunjucks_success_witness :
  status_of (exec (compileNunjucks demo_world home_page) [] 2) 0
  = Some (Fulfilled VUndefined).
Proof.
  exact (proj1 (compileNunjucks_success
                  demo_world home_page (VStr "<p>Acme</p>")
                  (VStr "<p>Acme</p>")
                  eq_refl eq_refl eq_refl eq_refl eq_refl eq_refl
                  [] 2 (le_n 2))).
Defined.

(** X2: a failed write in [compileNunjucks] is reported: the returned
    promise is rejected with the write error, after the render and the
    formatting were done. *)
Theorem compileNunjucks_write_error
  (w : world) (a : config) (res html : value) (msg : string) :
  truthy (inputPath a) = true ->
  truthy (outputPath a) = true ->
  truthy (templates a) = true ->
  render_answer w a = inr res ->
  pretty w res = inr html ->
  fs_writeFile w (outputPath a) html = Completes (Some msg) ->
  forall choices fuel, 2 <= fuel ->
    let s := exec (compileNunjucks w a) choices fuel in
    status_of s 0 = Some (Rejected (VError msg))
    /\ In (FsWriteFileDone (outputPath a) (Some msg)) (trace s).
Proof.
  intros Hi Ho Ht Hr Hp Hw choices fuel Hf. cbv zeta.
  unfold exec, compileNunjucks, throw_if, writeFile.
  rewrite Hi, Ho, Ht, Hr. cbn [negb run cb_err cb_data truthy].
  rewrite Hp, Hw, run_add_globals.
  rewrite (loop_from 2 fuel); [ | reflexivity | exact Hf].
  cbn. split; [reflexivity | ].
  rewrite <- !app_assoc. right. apply in_or_app. right. cbn. auto 10.
Qed.

Lemma compileNunjucks_write_error_witness :
  status_of (exec (compileNunjucks write_fails home_page) [] 2) 0
  = Some (Rejected (VError "EACCES: permission denied")).
Proof.
  exact (proj1 (compileNunjucks_write_error
                  write_fails home_page (VStr "<p>Acme</p>")
                  (VStr "<p>Acme</p>") "EACCES: permission denied"
                  eq_refl eq_refl eq_refl eq_refl eq_refl eq_refl
                  [] 2 (le_n 2))).
Defined.

(** X3: when the formatter throws in [compileNunjucks], the exception is
    raised inside the render callback: it escapes to the host, nothing is
    written, and the returned promise is never settled. *)
Theorem compileNunjucks_formatter_throws
  (w : world) (a : config) (res e : value) :
  truthy (inputPath a) = true ->
  truthy (outputPath a) = true ->
  truthy (templates a) = true ->
  render_answer w a = inr res ->
  pretty w res = inl e ->
  forall choices fuel,
    let s := exec (compileNunjucks w a) choices fuel in
    status_of s 0 = None
    /\ never is_write (trace s)
    /\ (1 <= fuel -> In (Thrown e) (trace s) /\ idle s = true).
Proof.
  intros Hi Ho Ht Hr Hp choices fuel. cbv zeta.
  unfold exec, compileNunjucks, throw_if, writeFile.
  rewrite Hi, Ho, Ht, Hr. cbn [negb run cb_err cb_data truthy].
  rewrite Hp, run_add_globals.
  repeat split.
  - revert fuel. apply pending_for_good with (n := 1); cbn; auto.
  - revert fuel. apply never_always with (n := 1); [reflexivity | ].
    cbn. apply never_cons; [reflexivity | ].
    rewrite <- !app_assoc. apply never_app.
    + apply globals_events_never; reflexivity.
    + never_list.
  - rewrite (loop_from 1 fuel); [ | reflexivity | assumption].
    cbn. rewrite <- !app_assoc. right. apply in_or_app. right. cbn. auto 10.
  - rewrite (loop_from 1 fuel); [ | reflexivity | assumption].
    reflexivity.
Qed.

Lemma compileNunjucks_formatter_throws_witness :
  let s := exec (compileNunjucks formatter_throws home_page) [] 3 in
  status_of s 0 = None
  /\ In (Thrown (VTypeError "str.replace is not a function")) (trace s).
Proof.
  pose proof (compileNunjucks_formatter_throws
                formatter_throws home_page (VStr "<p>Acme</p>")
                (VTypeError "str.replace is not a function")
                eq_refl eq_refl eq_refl eq_refl eq_refl [] 3) as H.
  cbv zeta in H. destruct H as (H1 & _ & H3).
  split; [exact H1 | exact (proj1 (H3 (le_S 1 2 (le_S 1 1 (le_n 1)))))].
Defined.

(** X4: when no global variable is given, [compileNunjucks] never hands the
    template search path to the engine: [nunjucks.configure] is called from
    inside the loop over the global variables only. *)
Theorem compileNunjucks_no_globals_no_configure
  (w : world) (a : config) :
  global_vars a = [] ->
  forall choices fuel,
    never is_configure (trace (exec (compileNunjucks w a) choices fuel)).
Proof.
  intros Hg choices.
  unfold exec, compileNunjucks, throw_if, writeFile.
  destruct (render_answer w a) as [msg | res].
  - rewrite Hg.
    destruct (truthy (inputPath a)); [ | finished 0].
    destruct (truthy (outputPath a)); [ | finished 0].
    destruct (truthy (templates a)); [ | finished 0].
    finished 1.
  - rewrite Hg. cbn [cb_err cb_data truthy].
    destruct (truthy (inputPath a)); [ | finished 0].
    destruct (truthy (outputPath a)); [ | finished 0].
    destruct (truthy (templates a)); [ | finished 0].
    destruct (pretty w res) as [e | html]; [finished 1 | ].
    destruct (fs_writeFile w (outputPath a) html) as [e | [msg | ]];
      finished 2.
Qed.

Lemma compileNunjucks_no_globals_no_configure_witness :
  never is_configure
    (trace (exec (compileNunjucks demo_world page_without_globals) [] 4)).
Proof.
  exact (compileNunjucks_no_globals_no_configure
           demo_world page_without_globals eq_refl [] 4).
Defined.

(* ------------------------------------------------------------------ *)
(** ** Validation, field by field *)

(** X5: [compileNunjucks] checks its required fields in the order inputPath,
    outputPath, templates, and a falsy value (the empty string, [null], 0)
    counts as missing like an omitted one: the whole run is the rejection
    that names the first such field. *)
Theorem compileNunjucks_validation_order
  (w : world) (a : config) (choices : list nat) (fuel : nat) :
  let tr := trace (exec (compileNunjucks w a) choices fuel) in
  let missing field :=
    [Settled 0 (Rejected (VError ("No " ++ field
                                  ++ " provided to compileNunjucks")%string))]
  in
  (truthy (inputPath a) = false -> tr = missing "inputPath")
  /\ (truthy (inputPath a) = true -> truthy (outputPath a) = false ->
      tr = missing "outputPath")
  /\ (truthy (inputPath a) = true -> truthy (outputPath a) = true ->
      truthy (templates a) = false -> tr = missing "templates").
Proof.
  cbv zeta. unfold exec, compileNunjucks, throw_if.
  repeat split; intros;
    repeat match goal with H : truthy _ = _ |- _ => rewrite H; clear H end;
    now rewrite loop_idle.
Qed.

Lemma compileNunjucks_validation_order_witness :
  trace (exec (compileNunjucks demo_world
                 (with_templates (VStr "home.njk") (VStr "")
                                 VUndefined None VUndefined)) [] 3)
  = [Settled 0 (Rejected
                  (VError "No outputPath provided to compileNunjucks"))].
Proof.
  exact (proj1 (proj2 (compileNunjucks_validation_order
                         demo_world
                         (with_templates (VStr "home.njk") (VStr "")
                                         VUndefined None VUndefined) [] 3))
               eq_refl eq_refl).
Defined.

(** X6: [compileSassAndPurgeCss] checks srcSassPath before destCssPath, a
    falsy value counting as missing: the whole run is the rejection that
    names the first such field, and the style sheet is not compiled. *)
Theorem compileSassAndPurgeCss_validation_order
  (w : world) (a : config) (choices : list nat) (fuel : nat) :
  let tr := trace (exec (compileSassAndPurgeCss w a) choices fuel) in
  let missing field :=
    [Settled 0 (Rejected
                  (VError ("No " ++ field
                           ++ " provided to compileSassAndPurgeCss")%string))]
  in
  (truthy (srcSassPath a) = false -> tr = missing "srcSassPath")
  /\ (truthy (srcSassPath a) = true -> truthy (destCssPath a) = false ->
      tr = missing "destCssPath").
Proof.
  cbv zeta. unfold exec, compileSassAndPurgeCss, throw_if.
  repeat split; intros;
    repeat match goal with H : truthy _ = _ |- _ => rewrite H; clear H end;
    now rewrite loop_idle.
Qed.

Lemma compileSassAndPurgeCss_validation_order_witness :
  trace (exec (compileSassAndPurgeCss demo_world
                 (with_sass (VStr "main.scss") VNull VUndefined VUndefined
                            VUndefined VUndefined)) [] 3)
  = [Settled 0 (Rejected
       (VError "No destCssPath provided to compileSassAndPurgeCss"))].
Proof.
  exact (proj2 (compileSassAndPurgeCss_validation_order
                  demo_world
                  (with_sass (VStr "main.scss") VNull VUndefined VUndefined
                             VUndefined VUndefined) [] 3)
               eq_refl eq_refl).
Defined.

(** X7: [babelAndMinify] validates before it makes its promise: with a falsy
    inputPath or outputPath the call throws synchronously (inputPath first),
    no promise is created, none is returned and the transformer is not
    called. *)
Theorem babelAndMinify_validation_throws
  (w : world) (a : config) (choices : list nat) (fuel : nat) :
  let s := exec (babelAndMinify w a) choices fuel in
  (truthy (inputPath a) = false ->
   trace s = [Thrown (VError "No inputPath provided to babelAndMinify")]
   /\ next s = 0)
  /\ (truthy (inputPath a) = true -> truthy (outputPath a) = false ->
      trace s = [Thrown (VError "No outputPath provided to babelAndMinify")]
      /\ next s = 0).
Proof.
  cbv zeta. unfold exec, babelAndMinify, throw_if.
  repeat split; intros;
    repeat match goal with H : truthy _ = _ |- _ => rewrite H; clear H end;
    now rewrite loop_idle.
Qed.

Lemma babelAndMinify_validation_throws_witness :
  let s := exec (babelAndMinify demo_world
                   (with_minify (VStr "src.js") (VStr "") VUndefined)) [] 3 in
  trace s = [Thrown (VError "No outputPath provided to babelAndMinify")]
  /\ next s = 0.
Proof.
  exact (proj2 (babelAndMinify_validation_throws
                  demo_world
                  (with_minify (VStr "src.js") (VStr "") VUndefined) [] 3)
               eq_refl eq_refl).
Defined.

(* ------------------------------------------------------------------ *)
(** ** uglify: the other paths *)

(** X8: when both paths are missing, [uglify] calls [reject] twice and the
    first call wins: the returned promise is rejected with the error that
    names the input path, in every state of every run; and [fs.readFile] is
    called all the same, on the missing path. *)
Theorem uglify_both_missing (w : world) (a : config) :
  truthy (inputPath a) = false ->
  truthy (outputPath a) = false ->
  forall choices fuel,
    let s := exec (uglify w a) choices fuel in
    status_of s 0
      = Some (Rejected (VError "No input path provided to uglify"))
    /\ exists rest,
         trace s
         = [Settled 0 (Rejected (VError "No input path provided to uglify"));
            ConsoleLog [VStr ("Minifying " ++ to_str (inputPath a))%string];
            FsReadFile (inputPath a)] ++ rest.
Proof.
  intros Hi Ho choices fuel. cbv zeta.
  assert (U : let s0 := run CTop (uglify w a) (init choices) in
              trace s0
              = [Settled 0
                   (Rejected (VError "No input path provided to uglify"));
                 ConsoleLog
                   [VStr ("Minifying " ++ to_str (inputPath a))%string];
                 FsReadFile (inputPath a)]
              /\ status_of s0 0
                 = Some (Rejected (VError "No input path provided to uglify"))
              /\ 0 < next s0).
  { unfold uglify, when, readFile. rewrite Hi, Ho.
    destruct (fs_readFile w (inputPath a)); cbn; auto. }
  destruct U as (Ut & Us & Un). split.
  - now apply settled_for_good.
  - destruct (exec_trace_prefix (uglify w a) choices fuel) as [rest E].
    exists rest. now rewrite E, Ut.
Qed.

Lemma uglify_both_missing_witness :
  status_of (exec (uglify demo_world (with_paths VUndefined VUndefined))
                  [] 3) 0
  = Some (Rejected (VError "No input path provided to uglify")).
Proof.
  pose proof (uglify_both_missing
                demo_world (with_paths VUndefined VUndefined)
                eq_refl eq_refl [] 3) as H.
  cbv zeta in H. exact (proj1 H).
Defined.

(** X9: the success path of [uglify].  The file is read, the minifier is
    called under the base name of the input path on what was read, what it
    gives is written to the output path, and the returned promise is
    fulfilled once that write has completed. *)
Theorem uglify_success
  (w : world) (a : config) (i : string) (src : value) :
  inputPath a = VStr i ->
  truthy (inputPath a) = true ->
  truthy (outputPath a) = true ->
  fs_readFile w (VStr i) = Completes (inr src) ->
  fs_writeFile w (outputPath a) (uglify_minify w (path_basename w i) src)
    = Completes None ->
  forall choices fuel, 2 <= fuel ->
    let s := exec (uglify w a) choices fuel in
    status_of s 0 = Some (Fulfilled VUndefined)
    /\ trace s
       = [ConsoleLog [VStr ("Minifying " ++ i)%string];
          FsReadFile (VStr i);
          FsReadFileDone (VStr i) (inr src);
          UglifyMinify (path_basename w i) src;
          FsWriteFile (outputPath a)
                      (uglify_minify w (path_basename w i) src);
          FsWriteFileDone (outputPath a) None;
          Settled 0 (Fulfilled VUndefined)].
Proof.
  intros Hp Hi Ho Hr Hw choices fuel Hf. cbv zeta.
  unfold exec, uglify, when, readFile, writeFile, basename.
  rewrite Hi, Ho, Hp, Hr. cbn [negb to_str cb_err cb_data truthy].
  rewrite Hw.
  rewrite (loop_from 2 fuel); [ | reflexivity | exact Hf].
  split; reflexivity.
Qed.

Lemma uglify_success_witness :
  status_of (exec (uglify demo_world (with_paths (VStr "app.js")
                                                 (VStr "app.min.js")))
                  [] 2) 0
  = Some (Fulfilled VUndefined).
Proof.
  exact (proj1 (uglify_success
                  demo_world (with_paths (VStr "app.js") (VStr "app.min.js"))
                  "app.js" (VStr "var a = 1;")
                  eq_refl eq_refl eq_refl eq_refl eq_refl [] 2 (le_n 2))).
Defined.

(** X10: a failed write in [uglify].  The write callback calls [reject] and
    then [resolve]; the rejection stands: the returned promise is rejected
    with the write error and is settled once only. *)
Theorem uglify_write_error
  (w : world) (a : config) (i : string) (src : value) (msg : string) :
  inputPath a = VStr i ->
  truthy (inputPath a) = true ->
  truthy (outputPath a) = true ->
  fs_readFile w (VStr i) = Completes (inr src) ->
  fs_writeFile w (outputPath a) (uglify_minify w (path_basename w i) src)
    = Completes (Some msg) ->
  forall choices fuel, 2 <= fuel ->
    let s := exec (uglify w a) choices fuel in
    status_of s 0 = Some (Rejected (VError msg))
    /\ filter (settles 0) (trace s) = [Settled 0 (Rejected (VError msg))].
Proof.
  intros Hp Hi Ho Hr Hw choices fuel Hf. cbv zeta.
  unfold exec, uglify, when, readFile, writeFile, basename.
  rewrite Hi, Ho, Hp, Hr. cbn [negb to_str cb_err cb_data truthy].
  rewrite Hw.
  rewrite (loop_from 2 fuel); [ | reflexivity | exact Hf].
  split; reflexivity.
Qed.

Lemma uglify_write_error_witness :
  status_of (exec (uglify write_fails (with_paths (VStr "app.js")
                                                  (VStr "app.min.js")))
                  [] 2) 0
  = Some (Rejected (VError "EACCES: permission denied")).
Proof.
  exact (proj1 (uglify_write_error
                  write_fails (with_paths (VStr "app.js") (VStr "app.min.js"))
                  "app.js" (VStr "var a = 1;") "EACCES: permission denied"
                  eq_refl eq_refl eq_refl eq_refl eq_refl [] 2 (le_n 2))).
Defined.

(* ------------------------------------------------------------------ *)
(** ** beautifyHtml *)

(** X11: a read error does not stop [beautifyHtml] either.  The returned
    promise is rejected with the read error, then the formatter is called on
    [undefined]; if it returns, [fs.writeFile] is called on the output path
    with what it returned, and if that write succeeds the output file has
    been written by a run that reported failure. *)
Theorem beautifyHtml_read_error_continues
  (w : world) (a : config) (msg : string) :
  truthy (inputPath a) = true ->
  truthy (outputPath a) = true ->
  fs_readFile w (inputPath a) = Completes (inl msg) ->
  forall choices fuel, 1 <= fuel ->
    let s := exec (beautifyHtml w a) choices fuel in
    status_of s 0 = Some (Rejected (VError msg))
    /\ (exists rest,
          trace s
          = [ConsoleLog
               [VStr ("Beautifying HTML for " ++ to_str (inputPath a))%string];
             FsReadFile (inputPath a);
             FsReadFileDone (inputPath a) (inl msg);
             Settled 0 (Rejected (VError msg));
             Pretty VUndefined] ++ rest)
    /\ (forall html,
          pretty w VUndefined = inr html ->
          In (FsWriteFile (outputPath a) html) (trace s)
          /\ (fs_writeFile w (outputPath a) html = Completes None ->
              2 <= fuel ->
              In (FsWriteFileDone (outputPath a) None) (trace s))).
Proof.
  intros Hi Ho Hr choices fuel Hf. cbv zeta.
  assert (S1 : let s1 := exec (beautifyHtml w a) choices 1 in
               status_of s1 0 = Some (Rejected (VError msg))
               /\ 0 < next s1
               /\ (exists rest,
                     trace s1
                     = [ConsoleLog
                          [VStr ("Beautifying HTML for "
                                 ++ to_str (inputPath a))%string];
                        FsReadFile (inputPath a);
                        FsReadFileDone (inputPath a) (inl msg);
                        Settled 0 (Rejected (VError msg));
                        Pretty VUndefined] ++ rest)
               /\ (forall html, pretty w VUndefined = inr html ->
                     In (FsWriteFile (outputPath a) html) (trace s1))).
  { unfold exec, beautifyHtml, when, readFile, writeFile.
    rewrite Hi, Ho, Hr. cbn [negb cb_err cb_data truthy].
    destruct (pretty w VUndefined) as [e | html].
    - cbn. repeat split; auto.
      + eexists. reflexivity.
      + discriminate.
    - destruct (fs_writeFile w (outputPath a) html) as [e | r]; cbn;
        repeat split; auto; try (eexists; reflexivity);
        intros html' [= <-]; auto 10. }
  destruct S1 as (St & Sn & (rest1 & Et) & Sw).
  assert (E : exists more,
            trace (exec (beautifyHtml w a) choices fuel)
            = trace (exec (beautifyHtml w a) choices 1) ++ more).
  { unfold exec. replace fuel with (1 + (fuel - 1)) by lia.
    rewrite loop_add. apply extends_loop. }
  destruct E as [more E].
  repeat split.
  - unfold exec in *. replace fuel with (1 + (fuel - 1)) by lia.
    rewrite loop_add. now apply (stable_loop (fuel - 1)).
  - exists (rest1 ++ more). rewrite E, Et. now rewrite <- app_assoc.
  - rewrite E. apply in_or_app. left. now apply Sw.
  - intros Hw Hf2.
    match goal with Hpretty : pretty w VUndefined = inr _ |- _ =>
      rename Hpretty into H end.
    unfold exec, beautifyHtml, when, readFile, writeFile.
    rewrite Hi, Ho, Hr. cbn [negb cb_err cb_data truthy].
    rewrite H, Hw.
    replace fuel with (2 + (fuel - 2)) by lia. rewrite loop_add.
    apply in_trace_loop. cbn. auto 10.
Qed.

Lemma beautifyHtml_read_error_continues_witness :
  let s := exec (beautifyHtml read_fails
                   (with_paths (VStr "index.html") (VStr "index.html")))
                [] 2 in
  status_of s 0 = Some (Rejected (VError "ENOENT: no such file"))
  /\ In (FsWriteFileDone (VStr "index.html") None) (trace s).
Proof.
  pose proof (beautifyHtml_read_error_continues
                read_fails
                (with_paths (VStr "index.html") (VStr "index.html"))
                "ENOENT: no such file" eq_refl eq_refl eq_refl [] 2
                (le_S 1 1 (le_n 1))) as H.
  cbv zeta in H. destruct H as (H1 & _ & H3).
  split; [exact H1 | ].
  exact (proj2 (H3 VUndefined eq_refl) eq_refl (le_n 2)).
Defined.

(** X12: the success path of [beautifyHtml]: what was read is formatted,
    the formatted text is written to the output path, and the returned
    promise is fulfilled once that write has completed. *)
Theorem beautifyHtml_success
  (w : world) (a : config) (src html : value) :
  truthy (inputPath a) = true ->
  truthy (outputPath a) = true ->
  fs_readFile w (inputPath a) = Completes (inr src) ->
  pretty w src = inr html ->
  fs_writeFile w (outputPath a) html = Completes None ->
  forall choices fuel, 2 <= fuel ->
    let s := exec (beautifyHtml w a) choices fuel in
    status_of s 0 = Some (Fulfilled VUndefined)
    /\ trace s
       = [ConsoleLog
            [VStr ("Beautifying HTML for " ++ to_str (inputPath a))%string];
          FsReadFile (inputPath a);
          FsReadFileDone (inputPath a) (inr src);
          Pretty src;
          FsWriteFile (outputPath a) html;
          FsWriteFileDone (outputPath a) None;
          Settled 0 (Fulfilled VUndefined)].
Proof.
  intros Hi Ho Hr Hp Hw choices fuel Hf. cbv zeta.
  unfold exec, beautifyHtml, when, readFile, writeFile.
  rewrite Hi, Ho, Hr. cbn [negb cb_err cb_data truthy].
  rewrite Hp, Hw.
  rewrite (loop_from 2 fuel); [ | reflexivity | exact Hf].
  split; reflexivity.
Qed.

Lemma beautifyHtml_success_witness :
  status_of (exec (beautifyHtml demo_world
                     (with_paths (VStr "index.html") (VStr "index.html")))
                  [] 2) 0
  = Some (Fulfilled VUndefined).
Proof.
  exact (proj1 (beautifyHtml_success
                  demo_world
                  (with_paths (VStr "index.html") (VStr "index.html"))
                  (VStr "var a = 1;") (VStr "var a = 1;")
                  eq_refl eq_refl eq_refl eq_refl eq_refl [] 2 (le_n 2))).
Defined.

(** X13: when the formatter throws in [beautifyHtml] after a successful
    read, the exception is raised inside the read callback: it escapes to
    the host, nothing is written, and the returned promise is never
    settled. *)
Theorem beautifyHtml_formatter_throws
  (w : world) (a : config) (src e : value) :
  truthy (inputPath a) = true ->
  truthy (outputPath a) = true ->
  fs_readFile w (inputPath a) = Completes (inr src) ->
  pretty w src = inl e ->
  forall choices fuel,
    let s := exec (beautifyHtml w a) choices fuel in
    status_of s 0 = None
    /\ never is_write (trace s)
    /\ (1 <= fuel -> In (Thrown e) (trace s) /\ idle s = true).
Proof.
  intros Hi Ho Hr Hp choices fuel. cbv zeta.
  unfold exec, beautifyHtml, when, readFile, writeFile.
  rewrite Hi, Ho, Hr. cbn [negb cb_err cb_data truthy].
  rewrite Hp.
  repeat split.
  - revert fuel. apply pending_for_good with (n := 1); cbn; auto.
  - revert fuel. finished 1.
  - rewrite (loop_from 1 fuel); [ | reflexivity | assumption].
    cbn. auto 10.
  - rewrite (loop_from 1 fuel); [ | reflexivity | assumption].
    reflexivity.
Qed.

Lemma beautifyHtml_formatter_throws_witness :
  let s := exec (beautifyHtml formatter_throws
                   (with_paths (VStr "index.html") (VStr "index.html")))
                [] 3 in
  status_of s 0 = None
  /\ In (Thrown (VTypeError "str.replace is not a function")) (trace s).
Proof.
  pose proof (beautifyHtml_formatter_throws
                formatter_throws
                (with_paths (VStr "index.html") (VStr "index.html"))
                (VStr "var a = 1;")
                (VTypeError "str.replace is not a function")
                eq_refl eq_refl eq_refl eq_refl [] 3) as H.
  cbv zeta in H. destruct H as (H1 & _ & H3).
  split; [exact H1 | exact (proj1 (H3 (le_S 1 2 (le_S 1 1 (le_n 1)))))].
Defined.

(* ------------------------------------------------------------------ *)
(** ** babelAndMinify: the write *)

(** X14: the success path of [babelAndMinify]: the code the transformer
    gave is written to the output path, and the returned promise is
    fulfilled once that write has completed. *)
Theorem babelAndMinify_success
  (w : world) (a : config) (code : value) :
  truthy (inputPath a) = true ->
  truthy (outputPath a) = true ->
  snd (babel_transformFile w (inputPath a) (babel_presets (minify a)))
    = inr code ->
  fs_writeFile w (outputPath a) code = Completes None ->
  forall choices fuel, 4 <= fuel ->
    let s := exec (babelAndMinify w a) choices fuel in
    status_of s 0 = Some (Fulfilled VUndefined)
    /\ exists pre,
         trace s
         = BabelTransformFile (inputPath a) (babel_presets (minify a))
           :: pre
           ++ [FsWriteFile (outputPath a) code;
               Settled 2 (Fulfilled VUndefined);
               FsWriteFileDone (outputPath a) None;
               Settled 0 (Fulfilled VUndefined)].
Proof.
  intros Hi Ho Hc Hw choices fuel Hf. cbv zeta.
  unfold exec, babelAndMinify, throw_if, writeFile.
  rewrite Hi, Ho. cbn [negb].
  destruct (babel_transformFile w (inputPath a) (babel_presets (minify a)))
    as [ready r].
  cbn [snd] in Hc. subst r. cbn [run fst snd settled_as].
  destruct ready.
  - rewrite (loop_from 4 fuel); [ | cbn; rewrite Hw; reflexivity | exact Hf].
    cbn. rewrite Hw. cbn. split; [reflexivity | ].
    exists []. reflexivity.
  - rewrite (loop_from 4 fuel); [ | cbn; rewrite Hw; reflexivity | exact Hf].
    cbn. rewrite Hw. cbn. split; [reflexivity | ].
    eexists [_]. reflexivity.
Qed.

Lemma babelAndMinify_success_witness :
  status_of (exec (babelAndMinify demo_world
                     (with_minify (VStr "src.js") (VStr "out.js") VUndefined))
                  [] 4) 0
  = Some (Fulfilled VUndefined).
Proof.
  exact (proj1 (babelAndMinify_success
                  demo_world
                  (with_minify (VStr "src.js") (VStr "out.js") VUndefined)
                  (VStr "var a=1;") eq_refl eq_refl eq_refl eq_refl
                  [] 4 (le_n 4))).
Defined.

(** X15: a failed write in [babelAndMinify] is only logged: the write error
    goes to [console.log] and the returned promise is never settled, in no
    run and at no time. *)
Theorem babelAndMinify_write_error_only_logged
  (w : world) (a : config) (code : value) (msg : string) :
  truthy (inputPath a) = true ->
  truthy (outputPath a) = true ->
  snd (babel_transformFile w (inputPath a) (babel_presets (minify a)))
    = inr code ->
  fs_writeFile w (outputPath a) code = Completes (Some msg) ->
  forall choices fuel,
    let s := exec (babelAndMinify w a) choices fuel in
    status_of s 0 = None
    /\ never (settles 0) (trace s)
    /\ (4 <= fuel ->
        idle s = true /\ In (ConsoleLog [VError msg]) (trace s)).
Proof.
  intros Hi Ho Hc Hw choices fuel. cbv zeta.
  unfold exec, babelAndMinify, throw_if, writeFile.
  rewrite Hi, Ho. cbn [negb].
  destruct (babel_transformFile w (inputPath a) (babel_presets (minify a)))
    as [ready r].
  cbn [snd] in Hc. subst r. cbn [run fst snd settled_as].
  repeat split.
  - revert fuel. apply pending_for_good with (n := 4);
      destruct ready; cbn; rewrite ?Hw; cbn; auto.
  - revert fuel. apply never_always with (n := 4);
      destruct ready; cbn; rewrite ?Hw; cbn; auto;
      apply never_forallb; reflexivity.
  - rewrite (loop_from 4 fuel);
      [ | destruct ready; cbn; rewrite Hw; reflexivity | assumption].
    destruct ready; cbn; rewrite Hw; reflexivity.
  - rewrite (loop_from 4 fuel);
      [ | destruct ready; cbn; rewrite Hw; reflexivity | assumption].
    destruct ready; cbn; rewrite Hw; cbn; auto 10.
Qed.

Lemma babelAndMinify_write_error_only_logged_witness :
  let s := exec (babelAndMinify write_fails
                   (with_minify (VStr "src.js") (VStr "out.js") VUndefined))
                [] 5 in
  status_of s 0 = None
  /\ In (ConsoleLog [VError "EACCES: permission denied"]) (trace s).
Proof.
  pose proof (babelAndMinify_write_error_only_logged
                write_fails
                (with_minify (VStr "src.js") (VStr "out.js") VUndefined)
                (VStr "var a=1;") "EACCES: permission denied"
                eq_refl eq_refl eq_refl eq_refl [] 5) as H.
  cbv zeta in H. destruct H as (H1 & _ & H3).
  split; [exact H1 | exact (proj2 (H3 (le_S 4 4 (le_n 4))))].
Defined.

(* ------------------------------------------------------------------ *)
(** ** compileSassAndPurgeCss: the failures before step 4 *)

(** X16: a compile error aborts [compileSassAndPurgeCss]: the returned
    promise is rejected with the error the compiler threw, and the run
    touches no file and never calls the purger. *)
Theorem compileSassAndPurgeCss_compile_error
  (w : world) (a : config) (e : value) :
  truthy (srcSassPath a) = true ->
  truthy (destCssPath a) = true ->
  sass_renderSync w (srcSassPath a) (destCssPath a)
                  (default_param (VBool true) (sassSourceMap a)) = inl e ->
  forall choices fuel,
    trace (exec (compileSassAndPurgeCss w a) choices fuel)
    = [ConsoleLog [VStr ("Rendering Sass to CSS from "
                         ++ to_str (srcSassPath a))%string];
       SassRenderSync (srcSassPath a) (destCssPath a)
                      (default_param (VBool true) (sassSourceMap a));
       Settled 0 (Rejected e)].
Proof.
  intros Hs Hd Hr choices fuel. sass_unfold.
  rewrite Hs, Hd. cbn [negb]. rewrite Hr.
  now rewrite loop_idle.
Qed.

Lemma compileSassAndPurgeCss_compile_error_witness :
  trace (exec (compileSassAndPurgeCss sass_fails (style_sheet VUndefined))
              [] 3)
  = [ConsoleLog [VStr "Rendering Sass to CSS from main.scss"];
     SassRenderSync (VStr "main.scss") (VStr "main.css") (VBool true);
     Settled 0 (Rejected (VError "Undefined variable."))].
Proof.
  exact (compileSassAndPurgeCss_compile_error
           sass_fails (style_sheet VUndefined) (VError "Undefined variable.")
           eq_refl eq_refl eq_refl [] 3).
Defined.

(** X17: a failed write of the compiled CSS or of its source map is
    reported by [compileSassAndPurgeCss]: whichever of the two writes
    completes first with an error, the returned promise ends rejected with
    one of the write errors, in either order of completion. *)
Theorem compileSassAndPurgeCss_write_error
  (w : world) (a : config) (res : sass_result) (r1 r2 : option string) :
  truthy (srcSassPath a) = true ->
  truthy (destCssPath a) = true ->
  strict_eq_true (default_param (VBool true) (sassSourceMap a)) = true ->
  sass_renderSync w (srcSassPath a) (destCssPath a)
                  (default_param (VBool true) (sassSourceMap a)) = inr res ->
  fs_writeFile w (destCssPath a) (sass_css res) = Completes r1 ->
  fs_writeFile w (map_path (destCssPath a)) (sass_map res) = Completes r2 ->
  r1 <> None \/ r2 <> None ->
  forall choices fuel, 6 <= fuel ->
    exists msg,
      (r1 = Some msg \/ r2 = Some msg)
      /\ status_of (exec (compileSassAndPurgeCss w a) choices fuel) 0
         = Some (Rejected (VError msg)).
Proof.
  intros Hs Hd Hm Hr H1 H2 Hne choices fuel Hf.
  unfold map_path in H2. sass_unfold.
  rewrite Hs, Hd. cbn [negb]. rewrite Hr, Hm, H1, H2.
  destruct (purge w (purgeCssContent a) (cssFilesToPurge a)
              (default_param (VBool true) (purgeCssSourceMap a)))
    as [ready answer].
  destruct choices as [|[|c] choices];
    destruct r1 as [m1 | ]; destruct r2 as [m2 | ];
    try (exfalso; destruct Hne as [Hne | Hne]; now apply Hne);
    (rewrite (loop_from 6 fuel); [ | reflexivity | exact Hf]);
    first [ exists m1; split; [now left | reflexivity]
          | exists m2; split; [now right | reflexivity] ].
Qed.

Lemma compileSassAndPurgeCss_write_error_witness :
  exists msg,
    (Some "EACCES: permission denied" = Some msg
     \/ Some "EACCES: permission denied" = Some msg)
    /\ status_of (exec (compileSassAndPurgeCss write_fails
                          (style_sheet VUndefined)) [1] 6) 0
       = Some (Rejected (VError msg)).
Proof.
  refine (compileSassAndPurgeCss_write_error
            write_fails (style_sheet VUndefined)
            (mkSass (VStr ".used{color:red}") (VStr "{}"))
            (Some "EACCES: permission denied")
            (Some "EACCES: permission denied")
            eq_refl eq_refl eq_refl eq_refl eq_refl eq_refl _ [1] 6 (le_n 6)).
  left. discriminate.
Defined.

(** X18: a failure of the purger is reported by [compileSassAndPurgeCss]:
    the returned promise ends rejected with the purger's error, and no
    overwrite of step 4 is ever done. *)
Theorem compileSassAndPurgeCss_purge_error
  (w : world) (a : config) (res : sass_result) (e : value) :
  truthy (srcSassPath a) = true ->
  truthy (destCssPath a) = true ->
  strict_eq_true (default_param (VBool true) (sassSourceMap a)) = true ->
  sass_renderSync w (srcSassPath a) (destCssPath a)
                  (default_param (VBool true) (sassSourceMap a)) = inr res ->
  fs_writeFile w (destCssPath a) (sass_css res) = Completes None ->
  fs_writeFile w (map_path (destCssPath a)) (sass_map res)
    = Completes None ->
  purge_answer w a = inl e ->
  forall choices fuel,
    let s := exec (compileSassAndPurgeCss w a) choices fuel in
    never is_write_sync (trace s)
    /\ never is_postcss (trace s)
    /\ (8 <= fuel -> status_of s 0 = Some (Rejected e)).
Proof.
  intros Hs Hd Hm Hr H1 H2 Hp choices fuel. cbv zeta.
  unfold map_path in H2. unfold purge_answer in Hp. sass_unfold.
  rewrite Hs, Hd. cbn [negb]. rewrite Hr, Hm, H1, H2.
  destruct (purge w (purgeCssContent a) (cssFilesToPurge a)
              (default_param (VBool true) (purgeCssSourceMap a)))
    as [ready answer].
  cbn [snd] in Hp. subst answer.
  split; [ | split].
  - revert fuel.
    destruct ready; destruct choices as [|[|c] choices]; finished 8.
  - revert fuel.
    destruct ready; destruct choices as [|[|c] choices]; finished 8.
  - intros Hf.
    destruct ready; destruct choices as [|[|c] choices];
      (rewrite (loop_from 8 fuel); [ | reflexivity | exact Hf]);
      reflexivity.
Qed.

Lemma compileSassAndPurgeCss_purge_error_witness :
  let s := exec (compileSassAndPurgeCss purge_fails (style_sheet VUndefined))
                [] 8 in
  never is_write_sync (trace s)
  /\ status_of s 0 = Some (Rejected (VError "ENOENT: main.css")).
Proof.
  pose proof (compileSassAndPurgeCss_purge_error
                purge_fails (style_sheet VUndefined)
                (mkSass (VStr ".used{color:red}") (VStr "{}"))
                (VError "ENOENT: main.css")
                eq_refl eq_refl eq_refl eq_refl eq_refl eq_refl eq_refl
                [] 8) as H.
  cbv zeta in H. destruct H as (H1 & _ & H3).
  split; [exact H1 | exact (H3 (le_n 8))].
Defined.

(* ------------------------------------------------------------------ *)
(** ** compileSassAndPurgeCss: step 4 *)

(** X19: what goes wrong in step 4 is never reported.  As soon as the purger
    has answered with results the returned promise is fulfilled, and it
    stays fulfilled whatever the prefixer and the overwrites do afterwards:
    no failure of theirs can reach the caller. *)
Theorem compileSassAndPurgeCss_step4_errors_unreported
  (w : world) (a : config) (choices : list nat) (rs : list purged) :
  purge_answer w a = inr rs ->
  (exists fuel0,
     In (purge_call a)
        (trace (exec (compileSassAndPurgeCss w a) choices fuel0))) ->
  exists n,
    forall fuel, n <= fuel ->
      status_of (exec (compileSassAndPurgeCss w a) choices fuel) 0
      = Some (Fulfilled VUndefined).
Proof.
  intros Ha [fuel0 Hin].
  destruct (compileSassAndPurgeCss_cases w a choices)
    as [(n & Hidle & Hw & Hp) | (n & s & rs' & Ha' & E & Hst & Hn & Hw)].
  - exfalso. destruct Hp as [Hp | [e He]]; [ | congruence].
    unfold exec in *.
    pose proof (never_always _ _ _ Hidle Hp fuel0 _ Hin) as C.
    discriminate C.
  - destruct (step4_resolves w rs' s Hst Hn) as (Hs' & _).
    rewrite <- E in Hs'.
    assert (Hnext : 0 < next (exec (compileSassAndPurgeCss w a) choices n)).
    { rewrite E.
      destruct (stable_run (step4 w (VArr (map purged_value rs')))
                           (CReturn 0) s) as [L _]. lia. }
    exists n. intros fuel Hf. unfold exec in *.
    replace fuel with (n + (fuel - n)) by lia. rewrite loop_add.
    now apply (stable_loop (fuel - n)).
Qed.

Lemma compileSassAndPurgeCss_step4_errors_unreported_witness :
  exists n,
    forall fuel, n <= fuel ->
      status_of (exec (compileSassAndPurgeCss prefixer_fails
                         (style_sheet VUndefined)) [] fuel) 0
      = Some (Fulfilled VUndefined).
Proof.
  apply (compileSassAndPurgeCss_step4_errors_unreported
           prefixer_fails (style_sheet VUndefined) []
           [mkPurged (VStr "a.css") (VStr ".used{color:red}")] eq_refl).
  exists 5. vm_compute. repeat (first [left; reflexivity | right]).
Defined.

Lemma trace_subscribe p rx s : trace (subscribe p rx s) = trace s.
Proof. unfold subscribe. now destruct (status (promises s p)). Qed.

Lemma prefix_and_save_trace w (r : purged) p s :
  trace (run (CReturn p) (prefix_and_save w (purged_value r) p) s)
  = trace s ++ [PostcssProcess (purged_css r)].
Proof.
  unfold prefix_and_save. cbn [run].
  change (get_prop (purged_value r) "css") with (Some (purged_css r)).
  cbn [run finish].
  destruct (fst (postcss_process w (purged_css r)));
    rewrite !trace_subscribe; reflexivity.
Qed.

(** The loop of step 4 over the results of the purger: its calls are one
    prefixing per result, in the order of the results. *)
Lemma for_each_prefixings w (rs : list purged) :
  forall c k s,
    0 < next s ->
    exists s1,
      run c (for_each (map purged_value rs)
               (fun r k' => Async (prefix_and_save w r) (fun _ => k')) k) s
      = run c k s1
      /\ trace s1 = trace s ++ prefixings rs
      /\ keeps 0 s s1.
Proof.
  induction rs as [|r rs IH]; intros c k s Hs; cbn [for_each map prefixings].
  - exists s. split; [reflexivity | ].
    split; [now rewrite app_nil_r | apply keeps_refl].
  - cbn [run].
    set (s_mid := run (CReturn (next s))
                      (prefix_and_save w (purged_value r) (next s))
                      (alloc fresh s)).
    assert (T : trace s_mid = trace s ++ [PostcssProcess (purged_css r)]).
    { unfold s_mid. now rewrite prefix_and_save_trace. }
    assert (K : keeps 0 s s_mid).
    { eapply keeps_trans; [apply keeps_alloc, Hs | ].
      apply spares_run.
      - apply prefix_and_save_spares.
      - cbn. lia.
      - cbn. intros [= E]. lia. }
    destruct (IH c k s_mid) as (s1 & E & T1 & K1).
    { destruct K. lia. }
    exists s1. split; [exact E | ]. split.
    + rewrite T1, T. unfold prefixings. now rewrite <- app_assoc.
    + eapply keeps_trans; eassumption.
Qed.

(** X20: the fan-out of step 4.  On the path where the compile, both writes
    and the purge succeed, the job that receives the purge results calls the
    prefixer once per result, in the order of the results, and then fulfils
    the returned promise: at that point every prefixing has been started,
    none before, and no overwrite has been done. *)
Theorem compileSassAndPurgeCss_step4_fan_out
  (w : world) (a : config) (res : sass_result) (rs : list purged) :
  truthy (srcSassPath a) = true ->
  truthy (destCssPath a) = true ->
  strict_eq_true (default_param (VBool true) (sassSourceMap a)) = true ->
  sass_renderSync w (srcSassPath a) (destCssPath a)
                  (default_param (VBool true) (sassSourceMap a)) = inr res ->
  fs_writeFile w (destCssPath a) (sass_css res) = Completes None ->
  fs_writeFile w (map_path (destCssPath a)) (sass_map res)
    = Completes None ->
  purge_answer w a = inr rs ->
  forall choices,
  exists n pre,
    trace (exec (compileSassAndPurgeCss w a) choices n)
    = pre ++ prefixings rs ++ [Settled 0 (Fulfilled VUndefined)]
    /\ never is_postcss pre
    /\ never is_write_sync pre
    /\ In (purge_call a) pre.
Proof.
  intros Hs Hd Hm Hr H1 H2 Hp choices.
  unfold map_path in H2. unfold purge_answer in Hp.
  assert (R : exists n s,
            exec (compileSassAndPurgeCss w a) choices n
            = run (CReturn 0) (step4 w (VArr (map purged_value rs))) s
            /\ status_of s 0 = None /\ 0 < next s
            /\ never is_postcss (trace s)
            /\ never is_write_sync (trace s)
            /\ In (purge_call a) (trace s)).
  { sass_unfold. rewrite Hs, Hd. cbn [negb]. rewrite Hr, Hm, H1, H2.
    unfold purge_call.
    destruct (purge w (purgeCssContent a) (cssFilesToPurge a)
                (default_param (VBool true) (purgeCssSourceMap a)))
      as [ready answer].
    cbn [snd] in Hp. subst answer.
    destruct ready; destruct choices as [|[|c] choices];
      first
        [ exists 6; eexists;
          split; [cbn -[step4]; reflexivity | ];
          split; [reflexivity | ];
          split; [cbn; lia | ];
          split; [cbn; never_list | ];
          split; [cbn; never_list | cbn; auto 20]
        | exists 7; eexists;
          split; [cbn -[step4]; reflexivity | ];
          split; [reflexivity | ];
          split; [cbn; lia | ];
          split; [cbn; never_list | ];
          split; [cbn; never_list | cbn; auto 20] ]. }
  destruct R as (n & s & E & Hst & Hn & Hq & Hws & Hin).
  exists n, (trace s). rewrite E. unfold step4.
  destruct (for_each_prefixings w rs (CReturn 0) Done s Hn)
    as (s1 & -> & T & (_ & K)).
  rewrite Hst in K. cbn [run finish]. unfold settle.
  unfold status_of in K. rewrite K. cbn [trace].
  rewrite T. split; [now rewrite app_assoc | auto].
Qed.

Lemma compileSassAndPurgeCss_step4_fan_out_witness :
  exists n pre,
    trace (exec (compileSassAndPurgeCss two_sheets (style_sheet VUndefined))
                [] n)
    = pre ++ [PostcssProcess (VStr ".a{}"); PostcssProcess (VStr ".b{}")]
          ++ [Settled 0 (Fulfilled VUndefined)]
    /\ never is_postcss pre.
Proof.
  destruct (compileSassAndPurgeCss_step4_fan_out
              two_sheets (style_sheet VUndefined)
              (mkSass (VStr ".used{color:red}") (VStr "{}"))
              [mkPurged (VStr "a.css") (VStr ".a{}");
               mkPurged (VStr "b.css") (VStr ".b{}")]
              eq_refl eq_refl eq_refl eq_refl eq_refl eq_refl eq_refl [])
    as (n & pre & E & Hq & _).
  exists n, pre. split; [exact E | exact Hq].
Defined.

(** X21: the purge needs the source map.  With any [sassSourceMap] other
    than [true] (after the default), so also with a truthy value such as 1,
    the purger is never called, whatever the collaborators answer. *)
Theorem compileSassAndPurgeCss_source_map_gate
  (w : world) (a : config) (choices : list nat) (fuel : nat) :
  strict_eq_true (default_param (VBool true) (sassSourceMap a)) = false ->
  never is_purge (trace (exec (compileSassAndPurgeCss w a) choices fuel))
  /\ never is_write_sync
       (trace (exec (compileSassAndPurgeCss w a) choices fuel))
  /\ never (writes_to (map_path (destCssPath a)))
       (trace (exec (compileSassAndPurgeCss w a) choices fuel)).
Proof.
  intros H. pose proof (dest_is_not_map_path (destCssPath a)) as Hneq.
  revert fuel.
  enough (G : forall bad : event -> bool,
             bad = is_purge \/ bad = is_write_sync
             \/ bad = writes_to (map_path (destCssPath a)) ->
             forall fuel,
               never bad
                 (trace (exec (compileSassAndPurgeCss w a) choices fuel))).
  { intros fuel. repeat split; apply G; auto. }
  intros bad Hbad. sass_unfold. rewrite H.
  destruct (truthy (srcSassPath a));
    [ | apply never_always with (n := 0); [reflexivity | ];
        destruct Hbad as [-> | [-> | ->]]; cbn; never_list ].
  destruct (truthy (destCssPath a));
    [ | apply never_always with (n := 0); [reflexivity | ];
        destruct Hbad as [-> | [-> | ->]]; cbn; never_list ].
  cbn [negb].
  destruct (sass_renderSync w (srcSassPath a) (destCssPath a)
              (default_param (VBool true) (sassSourceMap a))) as [e | res];
    [ apply never_always with (n := 0); [reflexivity | ];
      destruct Hbad as [-> | [-> | ->]]; cbn; never_list | ].
  destruct (fs_writeFile w (destCssPath a) (sass_css res))
    as [e1 | [m1 | ]];
    (apply never_always with (n := 1); [reflexivity | ];
     destruct Hbad as [-> | [-> | ->]]; cbn; never_list).
Qed.

Lemma compileSassAndPurgeCss_source_map_gate_witness :
  never is_purge
    (trace (exec (compileSassAndPurgeCss demo_world (style_sheet (VNum 1)))
                 [] 6)).
Proof.
  exact (proj1 (compileSassAndPurgeCss_source_map_gate
                  demo_world (style_sheet (VNum 1)) [] 6 eq_refl)).
Defined.

(* ------------------------------------------------------------------ *)
(** ** openInBrowser *)

(** X22: [openInBrowser] hands the command line to [exec] and returns; it
    never throws to its caller.  When the command has completed the
    callback logs what the command printed, standard output before
    standard error and neither when empty, and only then throws the error
    of a failed command, which so escapes to the host. *)
Theorem openInBrowser_reports_late
  (shell : string -> exec_answer) (browser openInBrowserPath : value)
  (choices : list nat) :
  let call := openInBrowser shell browser openInBrowserPath in
  let x := shell (open_command browser openInBrowserPath) in
  fst call = open_command browser openInBrowserPath
  /\ trace (exec (snd call) choices 0) = []
  /\ forall fuel, 1 <= fuel ->
       trace (exec (snd call) choices fuel)
       = shell_logs x
         ++ match exec_err x with
            | Some msg => [Thrown (VError msg)]
            | None => []
            end.
Proof.
  cbv zeta. split; [reflexivity | split; [reflexivity | ]].
  intros fuel Hf. unfold exec, openInBrowser, shell_logs, when. cbn [snd].
  destruct (shell (open_command browser openInBrowserPath))
    as [[msg | ] [|c1 out] [|c2 err]];
    (rewrite (loop_from 1 fuel); [ | reflexivity | exact Hf]);
    reflexivity.
Qed.

Lemma openInBrowser_reports_late_witness :
  trace (exec (snd (openInBrowser open_fails (VStr "Firefoxx")
                                  (VStr "index.html"))) [] 1)
  = [ConsoleLog [VStr "Unable to find application named 'Firefoxx'"];
     Thrown (VError "Command failed: open")].
Proof.
  exact (proj2 (proj2 (openInBrowser_reports_late
                         open_fails (VStr "Firefoxx") (VStr "index.html")
                         [])) 1 (le_n 1)).
Defined.

(* ------------------------------------------------------------------ *)
(** ** Fulfilled means written *)

Lemma precedes_after_never a late tr1 tr2 :
  never late tr1 -> precedes a late tr2 -> precedes a late (tr1 ++ tr2).
Proof.
  intros Hn Hp pre ev post E Hev.
  apply app_eq_app in E as [l [[E1 E2] | [E1 E2]]].
  - exfalso. destruct l as [|x l]; cbn in E2.
    + subst tr2. destruct (Hp [] ev post eq_refl Hev).
    + injection E2 as <- _. rewrite E1 in Hn.
      rewrite (Hn ev) in Hev; [discriminate | ].
      apply in_or_app. right. now left.
  - subst pre. apply in_or_app. right. now apply (Hp l ev post).
Qed.

(** X23: [uglify] fulfils its promise only after the write.  In every run,
    whatever the file system and the minifier answer, a fulfilment of the
    returned promise comes after the successful completion of a write to
    the output path. *)
Theorem uglify_fulfilled_only_after_write
  (w : world) (a : config) (choices : list nat) (fuel : nat) :
  precedes (FsWriteFileDone (outputPath a) None) (fulfils 0)
           (trace (exec (uglify w a) choices fuel)).
Proof.
  revert fuel. unfold exec, uglify, when, readFile, writeFile.
  destruct (truthy (inputPath a)); destruct (truthy (outputPath a));
    cbn [negb];
    (destruct (fs_readFile w (inputPath a)) as [e | [msg | src]];
     [ apply precedes_always with (n := 0);
       [cbn; solve [precedes_list] | right; reflexivity] | | ]);
    cbn [cb_err cb_data truthy];
    (destruct (basename w (inputPath a)) as [e | name];
     [ apply precedes_always with (n := 1);
       [cbn; solve [precedes_list] | right; reflexivity] | ]);
    match goal with
    | |- context [fs_writeFile w (outputPath a) ?c] =>
        destruct (fs_writeFile w (outputPath a) c) as [e | [m | ]]
    end;
    (apply precedes_always with (n := 2);
     [cbn; solve [precedes_list] | right; reflexivity]).
Qed.

(** X24: [beautifyHtml] fulfils its promise only after the write: in every
    run a fulfilment of the returned promise comes after the successful
    completion of a write to the output path. *)
Theorem beautifyHtml_fulfilled_only_after_write
  (w : world) (a : config) (choices : list nat) (fuel : nat) :
  precedes (FsWriteFileDone (outputPath a) None) (fulfils 0)
           (trace (exec (beautifyHtml w a) choices fuel)).
Proof.
  revert fuel. unfold exec, beautifyHtml, when, readFile, writeFile.
  destruct (truthy (inputPath a)); destruct (truthy (outputPath a));
    cbn [negb];
    (destruct (fs_readFile w (inputPath a)) as [e | [msg | src]];
     [ apply precedes_always with (n := 0);
       [cbn; solve [precedes_list] | right; reflexivity] | | ]);
    cbn [cb_err cb_data truthy];
    match goal with
    | |- context [pretty w ?t] =>
        destruct (pretty w t) as [e | html];
        [ apply precedes_always with (n := 1);
          [cbn; solve [precedes_list] | right; reflexivity] | ]
    end;
    destruct (fs_writeFile w (outputPath a) html) as [e | [m | ]];
    (apply precedes_always with (n := 2);
     [cbn; solve [precedes_list] | right; reflexivity]).
Qed.

(** X25: [babelAndMinify] fulfils its promise only after the write: in
    every run a fulfilment of the returned promise comes after the
    successful completion of a write to the output path. *)
Theorem babelAndMinify_fulfilled_only_after_write
  (w : world) (a : config) (choices : list nat) (fuel : nat) :
  precedes (FsWriteFileDone (outputPath a) None) (fulfils 0)
           (trace (exec (babelAndMinify w a) choices fuel)).
Proof.
  revert fuel. unfold exec, babelAndMinify, throw_if, writeFile.
  destruct (truthy (inputPath a));
    [ | apply precedes_always with (n := 0);
        [cbn; solve [precedes_list] | right; reflexivity] ].
  destruct (truthy (outputPath a));
    [ | apply precedes_always with (n := 0);
        [cbn; solve [precedes_list] | right; reflexivity] ].
  cbn [negb].
  destruct (babel_transformFile w (inputPath a) (babel_presets (minify a)))
    as [ready [e | code]]; destruct ready;
    try (apply precedes_always with (n := 3);
         [cbn; solve [precedes_list] | right; reflexivity]);
    destruct (fs_writeFile w (outputPath a) code) as [e | [m | ]] eqn:Ew;
    (apply precedes_always with (n := 5);
     [cbn; rewrite ?Ew; cbn; solve [precedes_list]
     | right; cbn; rewrite ?Ew; reflexivity]).
Qed.

(** X26: [compileNunjucks] fulfils its promise only after the write: in
    every run a fulfilment of the returned promise comes after the
    successful completion of a write to the output path. *)
Theorem compileNunjucks_fulfilled_only_after_write
  (w : world) (a : config) (choices : list nat) (fuel : nat) :
  precedes (FsWriteFileDone (outputPath a) None) (fulfils 0)
           (trace (exec (compileNunjucks w a) choices fuel)).
Proof.
  revert fuel. unfold exec, compileNunjucks, throw_if, writeFile.
  destruct (truthy (inputPath a));
    [ | apply precedes_always with (n := 0);
        [cbn; solve [precedes_list] | right; reflexivity] ].
  destruct (truthy (outputPath a));
    [ | apply precedes_always with (n := 0);
        [cbn; solve [precedes_list] | right; reflexivity] ].
  destruct (truthy (templates a));
    [ | apply precedes_always with (n := 0);
        [cbn; solve [precedes_list] | right; reflexivity] ].
  cbn [negb run]. rewrite run_add_globals.
  assert (G : never (fulfils 0)
                (globals_events (templates a) (global_vars a)
                   (map fst (global_vars a))))
    by (apply globals_events_never; reflexivity).
  destruct (render_answer w a) as [msg | res];
    cbn [cb_err cb_data truthy];
    [ apply precedes_always with (n := 1); [ | right; reflexivity];
      cbn; rewrite <- ?app_assoc;
      apply precedes_cons; [reflexivity | right];
      apply precedes_after_never; [exact G | solve [precedes_list]] | ].
  destruct (pretty w res) as [e | html];
    [ apply precedes_always with (n := 1); [ | right; reflexivity];
      cbn; rewrite <- ?app_assoc;
      apply precedes_cons; [reflexivity | right];
      apply precedes_after_never; [exact G | solve [precedes_list]] | ].
  destruct (fs_writeFile w (outputPath a) html) as [e | [m | ]];
    (apply precedes_always with (n := 2); [ | right; reflexivity];
     cbn; rewrite <- ?app_assoc;
     apply precedes_cons; [reflexivity | right];
     apply precedes_after_never; [exact G | solve [precedes_list]]).
Qed.
